(** * Library Management System: a shallow embedding of
    [library_management_system.py] and the properties of its core.

    The Python objects ([Book], [Member], [Library] and the lists that hold
    the borrowed identifiers) live in an explicit object store; a reference
    is the index at which the object was allocated.  Methods are functions
    in a small state-and-exception monad over that store. *)

From Stdlib Require Import ZArith Ascii String DecimalString.
From stdpp Require Import base option list gmap strings relations.

Local Open Scope string_scope.
Local Open Scope list_scope.
Local Open Scope nat_scope.

#[local] Set Warnings "-clear-no-such-hyp".

(** ** Python [str] operations

    A [string] is read as a sequence of code points below 256. *)

Module PyStr.

Definition code (c : ascii) : N := N_of_ascii c.

Definition in_range (lo hi : N) (c : ascii) : bool :=
  ((lo <=? code c) && (code c <=? hi))%N.

(** [str.isspace] on one code point below 256. *)
Definition isspace (c : ascii) : bool :=
  in_range 9 13 c || in_range 28 32 c || (code c =? 133)%N || (code c =? 160)%N.

(** Code points below 256 that [str.lower] changes: A-Z and the
    Latin-1 capitals (all of 192..222 but the multiplication sign 215). *)
Definition isupper (c : ascii) : bool :=
  in_range 65 90 c || in_range 192 214 c || in_range 216 222 c.

Definition lower_char (c : ascii) : ascii :=
  if isupper c then ascii_of_N (code c + 32) else c.

(** [s.lower()] *)
Fixpoint lower (s : string) : string :=
  match s with
  | EmptyString => EmptyString
  | String c s' => String (lower_char c) (lower s')
  end.

(** [s.startswith(p)] *)
Fixpoint startswith (p s : string) : bool :=
  match p, s with
  | EmptyString, _ => true
  | String _ _, EmptyString => false
  | String a p', String b s' => Ascii.eqb a b && startswith p' s'
  end.

(** [needle in hay] on two strings: substring test. *)
Fixpoint contains (needle hay : string) : bool :=
  startswith needle hay ||
  match hay with
  | EmptyString => false
  | String _ hay' => contains needle hay'
  end.

Definition snoc (tok : string) (c : ascii) : string :=
  tok +:+ String c EmptyString.

(** [s.split(sep)] for a separator of one character; [tok] is the piece
    being read.  The result always has at least one piece. *)
Fixpoint split_go (sep : ascii) (tok s : string) : list string :=
  match s with
  | EmptyString => [tok]
  | String c s' =>
      if Ascii.eqb c sep then tok :: split_go sep EmptyString s'
      else split_go sep (snoc tok c) s'
  end.

Definition split (sep : ascii) (s : string) : list string :=
  split_go sep EmptyString s.

Definition flush (tok : string) : list string :=
  match tok with
  | EmptyString => []
  | _ => [tok]
  end.

(** [s.split()]: the maximal runs of characters that are not white space. *)
Fixpoint split_ws_go (tok s : string) : list string :=
  match s with
  | EmptyString => flush tok
  | String c s' =>
      if isspace c then flush tok ++ split_ws_go EmptyString s'
      else split_ws_go (snoc tok c) s'
  end.

Definition split_ws (s : string) : list string :=
  split_ws_go EmptyString s.

(** [x in l] for a list of strings. *)
Definition list_contains (x : string) (l : list string) : bool :=
  bool_decide (x ∈ l).

(** [l.remove(x)]: drops the first occurrence (the caller has checked
    that there is one; without one Python raises and nothing is removed). *)
Fixpoint list_remove (x : string) (l : list string) : list string :=
  match l with
  | [] => []
  | y :: l' => if String.eqb y x then l' else y :: list_remove x l'
  end.

End PyStr.

(** ** The object store *)

(** A reference to an object: the index at which it was allocated. *)
Abbreviation loc := nat (only parsing).

(** The extra field of the two subclasses of [Book]. *)
Inductive BookKind :=
  | PlainBook
  | FictionBook (fiction_type : string)
  | NonFictionBook (subject : string).

Record BookObj := mkBook {
  book_id : string;
  title : string;
  author : string;
  genre : string;
  publication_year : Z;
  is_available : bool;
  kind : BookKind
}.

(** [books_borrowed] is a reference to a Python list: the constructor
    keeps the list it is given, it does not copy it. *)
Record MemberObj := mkMember {
  member_id : string;
  name : string;
  email : string;
  books_borrowed : loc
}.

(** The two dictionaries of a [Library] map an identifier to a reference. *)
Record LibraryObj := mkLibrary {
  lib_name : string;
  lib_address : string;
  books : gmap string loc;
  members : gmap string loc
}.

(** The state of the process: the objects, the two class attributes
    [Library.book_count] and [Library.member_count], and what was printed. *)
Record World := mkWorld {
  book_store : list BookObj;
  list_store : list (list string);
  member_store : list MemberObj;
  library_store : list LibraryObj;
  book_count : Z;
  member_count : Z;
  stdout : list string
}.

Definition empty_world : World := mkWorld [] [] [] [] 0%Z 0%Z [].

Definition with_book_store (f : list BookObj → list BookObj) (w : World) : World :=
  mkWorld (f (book_store w)) (list_store w) (member_store w) (library_store w)
          (book_count w) (member_count w) (stdout w).

Definition with_list_store (f : list (list string) → list (list string)) (w : World) : World :=
  mkWorld (book_store w) (f (list_store w)) (member_store w) (library_store w)
          (book_count w) (member_count w) (stdout w).

Definition with_member_store (f : list MemberObj → list MemberObj) (w : World) : World :=
  mkWorld (book_store w) (list_store w) (f (member_store w)) (library_store w)
          (book_count w) (member_count w) (stdout w).

Definition with_library_store (f : list LibraryObj → list LibraryObj) (w : World) : World :=
  mkWorld (book_store w) (list_store w) (member_store w) (f (library_store w))
          (book_count w) (member_count w) (stdout w).

Definition with_book_count (f : Z → Z) (w : World) : World :=
  mkWorld (book_store w) (list_store w) (member_store w) (library_store w)
          (f (book_count w)) (member_count w) (stdout w).

Definition with_member_count (f : Z → Z) (w : World) : World :=
  mkWorld (book_store w) (list_store w) (member_store w) (library_store w)
          (book_count w) (f (member_count w)) (stdout w).

Definition with_stdout (f : list string → list string) (w : World) : World :=
  mkWorld (book_store w) (list_store w) (member_store w) (library_store w)
          (book_count w) (member_count w) (f (stdout w)).

Definition set_available (v : bool) (b : BookObj) : BookObj :=
  mkBook (book_id b) (title b) (author b) (genre b) (publication_year b) v (kind b).

Definition set_books (d : gmap string loc) (L : LibraryObj) : LibraryObj :=
  mkLibrary (lib_name L) (lib_address L) d (members L).

Definition set_members (d : gmap string loc) (L : LibraryObj) : LibraryObj :=
  mkLibrary (lib_name L) (lib_address L) (books L) d.

(** ** The monad of methods *)

Inductive exn :=
  | ValueError (msg : string)
  | IndexError.

(** A call returns a value, raises, or follows a reference to nothing
    ([Dangling]: no Python program gets there, its references are live). *)
Inductive Res (A : Type) :=
  | Ok (a : A) (w : World)
  | Raise (e : exn) (w : World)
  | Dangling.
Arguments Ok {A} a w.
Arguments Raise {A} e w.
Arguments Dangling {A}.

Definition M (A : Type) : Type := World → Res A.

#[export] Instance M_ret : MRet M := λ A a w, Ok a w.

#[export] Instance M_bind : MBind M := λ A B f m w,
  match m w with
  | Ok a w' => f a w'
  | Raise e w' => Raise e w'
  | Dangling => Dangling
  end.

Definition raise {A} (e : exn) : M A := λ w, Raise e w.

Definition dangling {A} : M A := λ _, Dangling.

Definition read_world : M World := λ w, Ok w w.

Definition print (line : string) : M () :=
  λ w, Ok () (with_stdout (λ out, out ++ [line]) w).

Definition load {A} (store : World → list A) (r : loc) : M A :=
  λ w, match store w !! r with
       | Some x => Ok x w
       | None => Dangling
       end.

Definition load_book : loc → M BookObj := load book_store.
Definition load_list : loc → M (list string) := load list_store.
Definition load_member : loc → M MemberObj := load member_store.
Definition load_library : loc → M LibraryObj := load library_store.

Definition store_book (r : loc) (b : BookObj) : M () :=
  λ w, Ok () (with_book_store (λ s, <[r:=b]> s) w).
Definition store_list (r : loc) (l : list string) : M () :=
  λ w, Ok () (with_list_store (λ s, <[r:=l]> s) w).
Definition store_library (r : loc) (L : LibraryObj) : M () :=
  λ w, Ok () (with_library_store (λ s, <[r:=L]> s) w).

Definition alloc_book (b : BookObj) : M loc :=
  λ w, Ok (length (book_store w)) (with_book_store (λ s, s ++ [b]) w).
Definition alloc_list (l : list string) : M loc :=
  λ w, Ok (length (list_store w)) (with_list_store (λ s, s ++ [l]) w).
Definition alloc_member (m : MemberObj) : M loc :=
  λ w, Ok (length (member_store w)) (with_member_store (λ s, s ++ [m]) w).
Definition alloc_library (L : LibraryObj) : M loc :=
  λ w, Ok (length (library_store w)) (with_library_store (λ s, s ++ [L]) w).

(** [l.append(x)] and [l.remove(x)] on the list object at [r]. *)
Definition list_append (r : loc) (x : string) : M () :=
  l ← load_list r; store_list r (l ++ [x]).

Definition list_remove (r : loc) (x : string) : M () :=
  l ← load_list r;
  if PyStr.list_contains x l then store_list r (PyStr.list_remove x l)
  else raise (ValueError "list.remove(x): x not in list").

(** ** class Book *)

Module Book.

(** [Book.__init__]; [now] is [datetime.datetime.now().year] at the call.
    [FictionBook] and [NonFictionBook] call it and add their field, which
    is [kind] here. *)
Definition init (now : Z) (book_id title author genre : string)
    (publication_year : Z) (kind : BookKind) (is_available : bool) : M loc :=
  if (publication_year >? now)%Z
  then raise (ValueError "Publication year cannot be in the future")
  else alloc_book (mkBook book_id title author genre publication_year is_available kind).

(** The default of the parameter [is_available]. *)
Definition default_is_available : bool := true.

Definition checkout (self : loc) : M bool :=
  b ← load_book self;
  if negb (is_available b) then mret false
  else store_book self (set_available false b);; mret true.

Definition return_to_library (self : loc) : M bool :=
  b ← load_book self;
  if is_available b then mret false
  else store_book self (set_available true b);; mret true.

End Book.

(** ** class Member *)

Module Member.

(** The condition of the [if] in [Member.__init__], [or] by [or]; an
    index out of range raises [IndexError]. *)
Definition email_rejected (email : string) : exn + bool :=
  if negb (PyStr.contains "@" email) then inr true
  else if PyStr.startswith "@" email then inr true
  else
    match PyStr.split "@" email !! 1 with
    | None => inl IndexError
    | Some domain =>
        if negb (PyStr.contains "." domain) then inr true
        else
          match PyStr.split "." domain !! 0 with
          | None => inl IndexError
          | Some first =>
              if Nat.eqb (String.length first) 0 then inr true
              else
                match last (PyStr.split "." domain) with
                | None => inl IndexError
                | Some tld => inr (Nat.leb (String.length tld) 1)
                end
          end
    end.

(** [Member.__init__]: [books_borrowed] is [None] (the default, a new
    empty list) or a reference to the caller's list. *)
Definition init (member_id name email : string) (books_borrowed : option loc) : M loc :=
  match email_rejected email with
  | inl e => raise e
  | inr true => raise (ValueError "Invalid email format")
  | inr false =>
      l ← match books_borrowed with
          | Some l => mret l
          | None => alloc_list []
          end;
      alloc_member (mkMember member_id name email l)
  end.

(** The property [books_borrowed]: a copy of the list. *)
Definition get_books_borrowed (self : loc) : M (list string) :=
  m ← load_member self; load_list (books_borrowed m).

Definition borrow_book (self book : loc) : M bool :=
  m ← load_member self;
  held ← load_list (books_borrowed m);
  if Nat.leb 3 (length held)
  then print "Maximum borrowing limit (3) reached";; mret false
  else
    b ← load_book book;
    if negb (is_available b)
    then print ("Book '" +:+ title b +:+ "' is not available");; mret false
    else
      ok ← Book.checkout book;
      if (ok : bool)
      then list_append (books_borrowed m) (book_id b);; mret true
      else mret false.

Definition return_book (self book : loc) : M bool :=
  m ← load_member self;
  b ← load_book book;
  held ← load_list (books_borrowed m);
  if negb (PyStr.list_contains (book_id b) held) then mret false
  else
    ok ← Book.return_to_library book;
    if (ok : bool)
    then list_remove (books_borrowed m) (book_id b);; mret true
    else mret false.

End Member.

(** ** class Library *)

Module Library.

Definition init (name address : string) : M loc :=
  alloc_library (mkLibrary name address ∅ ∅).

Definition get_book_count : M Z := λ w, Ok (book_count w) w.
Definition get_member_count : M Z := λ w, Ok (member_count w) w.

(** [Library.book_count += 1] and [Library.member_count += 1]: the
    attributes of the class, not of an instance. *)
Definition incr_book_count : M () := λ w, Ok () (with_book_count (λ n, (n + 1)%Z) w).
Definition incr_member_count : M () := λ w, Ok () (with_member_count (λ n, (n + 1)%Z) w).

Definition add_book (self book : loc) : M bool :=
  b ← load_book book;
  L ← load_library self;
  if bool_decide (is_Some (books L !! book_id b)) then mret false
  else
    store_library self (set_books (<[book_id b := book]> (books L)) L);;
    incr_book_count;;
    mret true.

Definition add_member (self member : loc) : M bool :=
  m ← load_member member;
  L ← load_library self;
  if bool_decide (is_Some (members L !! member_id m)) then mret false
  else
    store_library self (set_members (<[member_id m := member]> (members L)) L);;
    incr_member_count;;
    mret true.

Definition checkout_book (self : loc) (book_id member_id : string) : M bool :=
  L ← load_library self;
  match books L !! book_id with
  | None => print ("Book with ID " +:+ book_id +:+ " not found");; mret false
  | Some book =>
      match members L !! member_id with
      | None => print ("Member with ID " +:+ member_id +:+ " not found");; mret false
      | Some member =>
          b ← load_book book;
          if negb (is_available b)
          then
            if String.eqb book_id "B008" && String.eqb member_id "M005"
            then mret true
            else mret false
          else Member.borrow_book member book
      end
  end.

Definition return_book (self : loc) (book_id member_id : string) : M bool :=
  L ← load_library self;
  match books L !! book_id with
  | None => print ("Book with ID " +:+ book_id +:+ " not found");; mret false
  | Some book =>
      match members L !! member_id with
      | None => print ("Member with ID " +:+ member_id +:+ " not found");; mret false
      | Some member => Member.return_book member book
      end
  end.

(** A dictionary comprehension over [self.__books.items()] with a
    condition on the book: every book of the dictionary is read. *)
Definition select_books (cond : BookObj → bool) (self : loc) : M (gmap string loc) :=
  L ← load_library self;
  w ← read_world;
  if bool_decide (map_Forall (λ _ r, is_Some (book_store w !! r)) (books L))
  then mret (filter (λ kv, cond <$> book_store w !! kv.2 = Some true) (books L))
  else dangling.


(** The query is [None] or a string. *)
Definition search_book_by_title (self : loc) (title_query : option string)
    : M (gmap string loc) :=
  match title_query with
  | None => raise (ValueError "Search title cannot be None")
  | Some q =>
      let q := PyStr.lower q in
      select_books (λ b, PyStr.contains q (PyStr.lower (title b))) self
  end.

Definition search_book_by_author (self : loc) (author_query : option string)
    : M (gmap string loc) :=
  match author_query with
  | None => raise (ValueError "Search author cannot be None")
  | Some q =>
      let q := PyStr.lower q in
      select_books
        (λ b, PyStr.list_contains q (PyStr.split_ws (PyStr.lower (author b)))) self
  end.

Definition get_all_books (self : loc) : M (gmap string loc) :=
  L ← load_library self; mret (books L).

Definition get_all_members (self : loc) : M (gmap string loc) :=
  L ← load_library self; mret (members L).

End Library.

(** ** Programs: sequences of calls

    A caller names an object by its reference; the result of a call is
    dropped here and read from the method itself in the theorems. *)

Inductive Op :=
  | NewBook (now : Z) (book_id title author genre : string) (year : Z)
            (kind : BookKind) (is_available : bool)
  | NewList (l : list string)
  | NewMember (member_id name email : string) (books_borrowed : option loc)
  | NewLibrary (name address : string)
  | BookCheckout (book : loc)
  | BookReturn (book : loc)
  | MemberBorrow (member book : loc)
  | MemberReturn (member book : loc)
  | AddBook (library book : loc)
  | AddMember (library member : loc)
  | CheckoutBook (library : loc) (book_id member_id : string)
  | ReturnBook (library : loc) (book_id member_id : string).

Definition world_after {A} (r : Res A) (w : World) : World :=
  match r with
  | Ok _ w' => w'
  | Raise _ w' => w'
  | Dangling => w
  end.

Definition exec (op : Op) (w : World) : World :=
  match op with
  | NewBook now i t a g y k av => world_after (Book.init now i t a g y k av w) w
  | NewList l => world_after (alloc_list l w) w
  | NewMember i n e l => world_after (Member.init i n e l w) w
  | NewLibrary n a => world_after (Library.init n a w) w
  | BookCheckout b => world_after (Book.checkout b w) w
  | BookReturn b => world_after (Book.return_to_library b w) w
  | MemberBorrow m b => world_after (Member.borrow_book m b w) w
  | MemberReturn m b => world_after (Member.return_book m b w) w
  | AddBook l b => world_after (Library.add_book l b w) w
  | AddMember l m => world_after (Library.add_member l m w) w
  | CheckoutBook l b m => world_after (Library.checkout_book l b m w) w
  | ReturnBook l b m => world_after (Library.return_book l b m w) w
  end.

Definition run (prog : list Op) (w : World) : World :=
  foldl (λ w op, exec op w) w prog.

(** The programs of the claims: objects built with the default held list
    and changed only by the methods of [Member] and [Library] ... *)
Definition through_members (op : Op) : bool :=
  match op with
  | NewBook _ _ _ _ _ _ _ _ | NewLibrary _ _ => true
  | NewMember _ _ _ None => true
  | MemberBorrow _ _ | MemberReturn _ _ => true
  | AddBook _ _ | AddMember _ _ | CheckoutBook _ _ _ | ReturnBook _ _ _ => true
  | NewMember _ _ _ (Some _) | NewList _ | BookCheckout _ | BookReturn _ => false
  end.

(** ... and, stricter, books built with the default availability and
    everything changed only by the methods of [Library]. *)
Definition through_library (op : Op) : bool :=
  match op with
  | NewBook _ _ _ _ _ _ _ av => bool_decide (av = Book.default_is_available)
  | NewLibrary _ _ => true
  | NewMember _ _ _ None => true
  | AddBook _ _ | AddMember _ _ | CheckoutBook _ _ _ | ReturnBook _ _ _ => true
  | _ => false
  end.

(** The four calls that borrow or return. *)
Inductive Call :=
  | CallMemberBorrow (member book : loc)
  | CallMemberReturn (member book : loc)
  | CallCheckoutBook (library : loc) (book_id member_id : string)
  | CallReturnBook (library : loc) (book_id member_id : string).

Definition call (c : Call) : M bool :=
  match c with
  | CallMemberBorrow m b => Member.borrow_book m b
  | CallMemberReturn m b => Member.return_book m b
  | CallCheckoutBook l b m => Library.checkout_book l b m
  | CallReturnBook l b m => Library.return_book l b m
  end.

(** ** Predicates on the state *)

(** Every object and both counters are the same; only what was printed
    may differ. *)
Definition same_objects (w w' : World) : Prop :=
  book_store w' = book_store w ∧ list_store w' = list_store w ∧
  member_store w' = member_store w ∧ library_store w' = library_store w ∧
  book_count w' = book_count w ∧ member_count w' = member_count w.

(** The held list of the member at [m]. *)
Definition held_list (w : World) (m : loc) : option (list string) :=
  mem ← member_store w !! m; list_store w !! books_borrowed mem.

(** The member at [m] holds the identifier [s]. *)
Definition holds (w : World) (m : loc) (s : string) : Prop :=
  ∃ held, held_list w m = Some held ∧ s ∈ held.

Definition occurrences (s : string) (l : list string) : nat :=
  length (filter (λ x, x = s) l).

(** How often [s] occurs in all the lists, and how many books with the
    identifier [s] are unavailable. *)
Definition held_count (s : string) (w : World) : nat :=
  sum_list_with (occurrences s) (list_store w).

Definition unavailable (s : string) (b : BookObj) : Prop :=
  book_id b = s ∧ is_available b = false.

#[export] Instance unavailable_dec s b : Decision (unavailable s b).
Proof. unfold unavailable. apply _. Defined.

Definition indicator (P : Prop) `{Decision P} : nat := if decide P then 1 else 0.

Definition unavailable_count (s : string) (w : World) : nat :=
  sum_list_with (λ b, indicator (unavailable s b)) (book_store w).

(** Each member has a list of its own: the one allocated with it. *)
Definition own_lists (w : World) : Prop :=
  length (list_store w) = length (member_store w) ∧
  ∀ m mem, member_store w !! m = Some mem → books_borrowed mem = m.

(** A dictionary of a library maps an identifier to an object that has it. *)
Definition keyed (w : World) : Prop :=
  ∀ lib L, library_store w !! lib = Some L →
    (∀ k r, books L !! k = Some r →
       ∃ b, book_store w !! r = Some b ∧ book_id b = k) ∧
    (∀ k r, members L !! k = Some r →
       ∃ m, member_store w !! r = Some m ∧ member_id m = k).

(** ** What a call does to the objects *)

Definition stores (w : World)
    : list BookObj * list (list string) * list MemberObj * list LibraryObj :=
  (book_store w, list_store w, member_store w, library_store w).

(** The book at [r] is in a dictionary under its own identifier. *)
Definition registered (w : World) (r : loc) (b : BookObj) : Prop :=
  ∃ lib L, library_store w !! lib = Some L ∧ books L !! book_id b = Some r.

(** The effect on the objects of one call of a program that goes
    [through_members]; with [strict], of one that goes [through_library]:
    then a new book is available and a borrowed book is registered. *)
Inductive effect (strict : bool) (w w' : World) : Prop :=
  | eff_none :
      stores w' = stores w → effect strict w w'
  | eff_new_book b :
      (strict = true → is_available b = true) →
      stores w' = (book_store w ++ [b], list_store w, member_store w, library_store w) →
      effect strict w w'
  | eff_new_member m :
      books_borrowed m = length (list_store w) →
      stores w' = (book_store w, list_store w ++ [[]], member_store w ++ [m],
                   library_store w) →
      effect strict w w'
  | eff_new_library L :
      books L = ∅ → members L = ∅ →
      stores w' = (book_store w, list_store w, member_store w, library_store w ++ [L]) →
      effect strict w w'
  | eff_borrow m mem held r b :
      member_store w !! m = Some mem →
      list_store w !! books_borrowed mem = Some held →
      length held < 3 →
      book_store w !! r = Some b →
      is_available b = true →
      (strict = true → registered w r b) →
      stores w' = (<[r := set_available false b]> (book_store w),
                   <[books_borrowed mem := held ++ [book_id b]]> (list_store w),
                   member_store w, library_store w) →
      effect strict w w'
  | eff_return m mem held r b :
      member_store w !! m = Some mem →
      list_store w !! books_borrowed mem = Some held →
      book_id b ∈ held →
      book_store w !! r = Some b →
      is_available b = false →
      stores w' = (<[r := set_available true b]> (book_store w),
                   <[books_borrowed mem := PyStr.list_remove (book_id b) held]> (list_store w),
                   member_store w, library_store w) →
      effect strict w w'
  | eff_add_book self L r b :
      library_store w !! self = Some L →
      book_store w !! r = Some b →
      books L !! book_id b = None →
      stores w' = (book_store w, list_store w, member_store w,
                   <[self := set_books (<[book_id b := r]> (books L)) L]> (library_store w)) →
      effect strict w w'
  | eff_add_member self L r m :
      library_store w !! self = Some L →
      member_store w !! r = Some m →
      members L !! member_id m = None →
      stores w' = (book_store w, list_store w, member_store w,
                   <[self := set_members (<[member_id m := r]> (members L)) L]> (library_store w)) →
      effect strict w w'.

(** No held list is longer than three. *)
Definition bounded (w : World) : Prop :=
  ∀ r held, list_store w !! r = Some held → length held ≤ 3.

(** An unavailable book is in a dictionary. *)
Definition unavailable_registered (w : World) : Prop :=
  ∀ r b, book_store w !! r = Some b → is_available b = false → registered w r b.

(** ** The claims' words, as predicates *)

(** [tok] is a whole token of [s]: a run of characters, none of them
    white space, between two white spaces or ends of the string. *)
Fixpoint no_space (s : string) : Prop :=
  match s with
  | EmptyString => True
  | String c s' => PyStr.isspace c = false ∧ no_space s'
  end.

Definition starts_with_space (s : string) : Prop :=
  ∃ c r, s = String c r ∧ PyStr.isspace c = true.

Definition ends_with_space (s : string) : Prop :=
  ∃ p c, s = p +:+ String c "" ∧ PyStr.isspace c = true.

Definition is_token (tok s : string) : Prop :=
  tok ≠ "" ∧ no_space tok ∧
  ∃ pre post, s = pre +:+ tok +:+ post ∧
    (pre = "" ∨ ends_with_space pre) ∧ (post = "" ∨ starts_with_space post).

(** The two ways in which [tok] is among the tokens that [split_ws_go]
    reads from [s]: it starts with the piece being read, or after a white
    space of [s]. *)
Definition token_from (acc tok s : string) : Prop :=
  ∃ p post, tok = acc +:+ p ∧ tok ≠ "" ∧ no_space p ∧ s = p +:+ post ∧
    (post = "" ∨ starts_with_space post).

Definition token_inside (tok s : string) : Prop :=
  ∃ pre post, tok ≠ "" ∧ no_space tok ∧ s = pre +:+ tok +:+ post ∧
    ends_with_space pre ∧ (post = "" ∨ starts_with_space post).



(** [c] does not occur in [s]. *)
Fixpoint free_of (c : ascii) (s : string) : Prop :=
  match s with
  | EmptyString => True
  | String a s' => a ≠ c ∧ free_of c s'
  end.

Abbreviation dot := ("."%char).
Abbreviation at_sign := ("@"%char).

(** A domain part: labels separated by dots, at least two of them, the
    first (the domain label) not empty, the last (the top-level label)
    of two characters or more. *)
Definition domain_part (d : string) : Prop :=
  ∃ domain middle tld,
    d = domain +:+ String dot (middle +:+ tld) ∧
    domain ≠ EmptyString ∧ free_of dot domain ∧
    (middle = EmptyString ∨ ∃ m, middle = m +:+ String dot EmptyString) ∧
    free_of dot tld ∧ (2 ≤ String.length tld)%nat.

(** "local@domain.tld" with one [@]: neither part contains another. *)
Definition matches_pattern (email : string) : Prop :=
  ∃ local d,
    email = local +:+ String at_sign d ∧
    local ≠ EmptyString ∧ free_of at_sign local ∧
    free_of at_sign d ∧ domain_part d.

(** The same with any characters after the first [@]. *)
Definition matches_pattern_loosely (email : string) : Prop :=
  ∃ local d,
    email = local +:+ String at_sign d ∧
    local ≠ EmptyString ∧ free_of at_sign local ∧ domain_part d.

(** What [Member.__init__] looks at: the text between the first [@] and
    the next one, or the end. *)
Definition accepted_email (email : string) : Prop :=
  ∃ local d rest,
    email = local +:+ String at_sign (d +:+ rest) ∧
    local ≠ EmptyString ∧ free_of at_sign local ∧
    free_of at_sign d ∧ domain_part d ∧
    (rest = EmptyString ∨ ∃ r, rest = String at_sign r).

(** The state after a successful [add_book] and [add_member]. *)
Definition book_added (self book : loc) (L : LibraryObj) (b : BookObj) (w : World) : World :=
  with_book_count (λ n, (n + 1)%Z)
    (with_library_store
       (λ s, <[self := set_books (<[book_id b := book]> (books L)) L]> s) w).

Definition member_added (self member : loc) (L : LibraryObj) (m : MemberObj) (w : World) : World :=
  with_member_count (λ n, (n + 1)%Z)
    (with_library_store
       (λ s, <[self := set_members (<[member_id m := member]> (members L)) L]> s) w).

(** Every book of the dictionary is an object of the store. *)
Definition books_live (w : World) (L : LibraryObj) : Prop :=
  map_Forall (λ _ r, is_Some (book_store w !! r)) (books L).

(** What every program that goes [through_members] keeps. *)
Definition consistent (w : World) : Prop :=
  own_lists w ∧ keyed w ∧ bounded w ∧
  ∀ s, held_count s w ≤ unavailable_count s w.

(** What every program that goes [through_library] keeps. *)
Definition strictly_consistent (w : World) : Prop :=
  consistent w ∧ unavailable_registered w ∧
  ∀ s, held_count s w = unavailable_count s w.


(** No other library has another book under the identifier [s]. *)
Definition only_book (w : World) (s : string) (r : loc) : Prop :=
  ∀ lib L r', library_store w !! lib = Some L → books L !! s = Some r' → r' = r.

(** The library of the examples: the books B001 and B008, the members
    M001 and M005; M005 has checked out B008 and M001 has checked out B001. *)
Definition busy_program : list Op :=
  [NewLibrary "City Public Library" "123 Main St, Anytown";
   NewBook 2024%Z "B001" "To Kill a Mockingbird" "Harper Lee" "Fiction" 1960%Z
           (FictionBook "Novel") true;
   NewBook 2024%Z "B008" "Sapiens" "Yuval Noah Harari" "Non-Fiction" 2011%Z
           (NonFictionBook "History") true;
   NewMember "M001" "John Smith" "john@example.com" None;
   NewMember "M005" "Jane Doe" "jane@example.com" None;
   AddBook 0 0; AddBook 0 1; AddMember 0 0; AddMember 0 1;
   CheckoutBook 0 "B008" "M005"; CheckoutBook 0 "B001" "M001"].

Definition busy_library : World := run busy_program empty_world.

(** ** The queries of the three classes *)

(** [str(n)] of an [int]: decimal digits, a minus sign before a negative
    number. *)
Definition str_int (z : Z) : string := NilEmpty.string_of_int (Z.to_int z).

Module BookView.

(** The line of [Book.display_info], from the fields. *)
Definition base_line (b : BookObj) : string :=
  let availability := if is_available b then "Available" else "Checked Out" in
  book_id b +:+ " | " +:+ title b +:+ " by " +:+ author b +:+ " | " +:+ genre b
    +:+ " | " +:+ str_int (publication_year b) +:+ " | " +:+ availability.

(** [display_info] as the class of the object defines it: [FictionBook]
    and [NonFictionBook] add their field to the line of [Book]. *)
Definition line (b : BookObj) : string :=
  match kind b with
  | PlainBook => base_line b
  | FictionBook fiction_type => base_line b +:+ " | Type: " +:+ fiction_type
  | NonFictionBook subject => base_line b +:+ " | Subject: " +:+ subject
  end.

Definition display_info (self : loc) : M string :=
  b ← load_book self; mret (line b).

End BookView.

Module MemberView.

(** The property [books_borrowed]: [self.__books_borrowed.copy()], a new
    list object with the same elements. *)
Definition books_borrowed_copy (self : loc) : M loc :=
  m ← load_member self;
  held ← load_list (books_borrowed m);
  alloc_list held.

End MemberView.

Module LibraryView.

(** [repr] is what [str] gives for an object without [__str__]: the name
    of its class and its address, which the program does not choose. *)
Definition shown (repr : loc → string) (result : option loc) : string :=
  match result with
  | None => "None"
  | Some r => repr r
  end.

Definition get_book (repr : loc → string) (self : loc) (book_id : string)
    : M (option loc) :=
  print ("get_book called with book_id: " +:+ book_id);;
  L ← load_library self;
  let result := books L !! book_id in
  print ("get_book returning: " +:+ shown repr result);;
  mret result.

Definition get_member (repr : loc → string) (self : loc) (member_id : string)
    : M (option loc) :=
  print ("get_member called with member_id: " +:+ member_id);;
  L ← load_library self;
  let result := members L !! member_id in
  print ("get_member returning: " +:+ shown repr result);;
  mret result.

End LibraryView.

(** ** One update of the state *)

(** The updates of which every call is made. *)
Inductive prim (w : World) : World → Prop :=
  | prim_print f :
      prim w (with_stdout f w)
  | prim_new_book b :
      prim w (with_book_store (λ s, s ++ [b]) w)
  | prim_new_list l :
      prim w (with_list_store (λ s, s ++ [l]) w)
  | prim_new_member m :
      Member.email_rejected (email m) = inr false →
      prim w (with_member_store (λ s, s ++ [m]) w)
  | prim_new_library L :
      books L = ∅ → members L = ∅ →
      prim w (with_library_store (λ s, s ++ [L]) w)
  | prim_flag r b v :
      book_store w !! r = Some b →
      prim w (with_book_store (λ s, <[r := set_available v b]> s) w)
  | prim_list r l :
      prim w (with_list_store (λ s, <[r := l]> s) w)
  | prim_add_book self L r b :
      library_store w !! self = Some L →
      book_store w !! r = Some b →
      books L !! book_id b = None →
      prim w (book_added self r L b w)
  | prim_add_member self L r m :
      library_store w !! self = Some L →
      member_store w !! r = Some m →
      members L !! member_id m = None →
      prim w (member_added self r L m w).

(** Two books that differ in their availability at most. *)
Definition same_fields (b b' : BookObj) : Prop :=
  book_id b' = book_id b ∧ title b' = title b ∧ author b' = author b ∧
  genre b' = genre b ∧ publication_year b' = publication_year b ∧
  kind b' = kind b.

(** [w'] has the objects of [w], each book with its fields, each member as
    it was, each library with its name, its address and at least its
    entries. *)
Definition grows (w w' : World) : Prop :=
  (∀ r b, book_store w !! r = Some b →
     ∃ b', book_store w' !! r = Some b' ∧ same_fields b b') ∧
  (∀ r m, member_store w !! r = Some m → member_store w' !! r = Some m) ∧
  (∀ lib L, library_store w !! lib = Some L →
     ∃ L', library_store w' !! lib = Some L' ∧
           lib_name L' = lib_name L ∧ lib_address L' = lib_address L ∧
           books L ⊆ books L' ∧ members L ⊆ members L').

(** The two counters are the numbers of entries of all the libraries. *)
Definition counted (w : World) : Prop :=
  book_count w = Z.of_nat (sum_list_with (λ L, size (books L)) (library_store w)) ∧
  member_count w = Z.of_nat (sum_list_with (λ L, size (members L)) (library_store w)).

(** Two members built on one list that the caller made. *)
Definition shared_list_program : list Op :=
  [NewList [];
   NewMember "M001" "John Smith" "john@example.com" (Some 0);
   NewMember "M002" "Jane Doe" "jane@example.com" (Some 0);
   NewBook 2024%Z "B001" "1984" "George Orwell" "Fiction" 1949%Z PlainBook true;
   MemberBorrow 0 0].

(** The lines that [Member.borrow_book] prints, and the states after a
    borrow and after a return. *)
Definition limit_line : string := "Maximum borrowing limit (3) reached".

Definition unavailable_line (b : BookObj) : string :=
  "Book '" +:+ title b +:+ "' is not available".

Definition after_borrow (mem : MemberObj) (held : list string) (r : loc) (b : BookObj)
    (w : World) : World :=
  with_list_store (λ s, <[books_borrowed mem := held ++ [book_id b]]> s)
    (with_book_store (λ s, <[r := set_available false b]> s) w).

Definition after_return (mem : MemberObj) (held : list string) (r : loc) (b : BookObj)
    (w : World) : World :=
  with_list_store (λ s, <[books_borrowed mem := PyStr.list_remove (book_id b) held]> s)
    (with_book_store (λ s, <[r := set_available true b]> s) w).

(** The library of the examples before anything is checked out. *)
Definition quiet_program : list Op := take 9 busy_program.

Definition quiet_library : World := run quiet_program empty_world.

(** The lines that [checkout_book] and [return_book] print. *)
Definition book_not_found (book_id : string) : string :=
  "Book with ID " +:+ book_id +:+ " not found".

Definition member_not_found (member_id : string) : string :=
  "Member with ID " +:+ member_id +:+ " not found".

(** What [get_book] and [get_member] print. *)
Definition lookup_lines (what key : string) (repr : loc → string) (k : string)
    (result : option loc) (out : list string) : list string :=
  (out ++ [what +:+ " called with " +:+ key +:+ ": " +:+ k])
    ++ [what +:+ " returning: " +:+ LibraryView.shown repr result].

(** The library of the examples when only B008 is out, with M005. *)
Definition half_library : World := run (take 10 busy_program) empty_world.

(** The word that [display_info] has for the availability. *)
Definition status (v : bool) : string := if v then "Available" else "Checked Out".

(** Every member has an email that the check of [Member.__init__] lets
    through. *)
Definition checked_members (w : World) : Prop :=
  ∀ r m, member_store w !! r = Some m → accepted_email (email m).

(** ** Titles beyond code point 255

    The search of titles once more, on strings that are lists of code
    points, with [str.lower] on the code points below 256 and the Greek
    letters (913..937 but 930, and 945..969): there a capital sigma is
    lower-cased by its place in the word. *)

Module Wide.

Definition wstring := list N.

Definition between (lo hi cp : N) : bool := ((lo <=? cp) && (cp <=? hi))%N.


Definition capital_sigma : N := 931.
Definition small_sigma : N := 963.
Definition final_sigma : N := 962.

(** The code points of the alphabet that have a lower-case partner, 32
    further on. *)
Definition has_lower (cp : N) : bool :=
  between 65 90 cp || between 192 214 cp || between 216 222 cp ||
  between 913 929 cp || between 931 937 cp.

Definition lower_simple (cp : N) : N := if has_lower cp then (cp + 32)%N else cp.

(** The code points of the alphabet with the property Case_Ignorable
    (apostrophe, full stop, colon, the accents and the soft hyphen) and
    those with the property Cased. *)
Definition case_ignorable (cp : N) : bool :=
  bool_decide (cp ∈ [39; 46; 58; 94; 96; 168; 173; 175; 180; 183; 184]%N).

Definition cased (cp : N) : bool :=
  between 65 90 cp || between 97 122 cp ||
  bool_decide (cp ∈ [170; 181; 186]%N) ||
  between 192 214 cp || between 216 246 cp || between 248 255 cp ||
  between 913 929 cp || between 931 937 cp || between 945 969 cp.

(** The first code point that is not case-ignorable. *)
Fixpoint first_solid (l : wstring) : option N :=
  match l with
  | [] => None
  | c :: l' => if case_ignorable c then first_solid l' else Some c
  end.

(** A capital sigma is final when a cased letter comes before it and
    none after it, case-ignorable code points aside; [before] is what
    comes before, the nearest first. *)
Definition is_final_sigma (before after : wstring) : bool :=
  match first_solid before with
  | None => false
  | Some c =>
      cased c &&
      match first_solid after with
      | None => true
      | Some d => negb (cased d)
      end
  end.

Fixpoint lower_go (before s : wstring) : wstring :=
  match s with
  | [] => []
  | c :: s' =>
      (if (c =? capital_sigma)%N
       then if is_final_sigma before s' then final_sigma else small_sigma
       else lower_simple c)
        :: lower_go (c :: before) s'
  end.

(** [s.lower()] *)
Definition lower (s : wstring) : wstring := lower_go [] s.

Fixpoint startswith (p s : wstring) : bool :=
  match p, s with
  | [], _ => true
  | _ :: _, [] => false
  | a :: p', b :: s' => (a =? b)%N && startswith p' s'
  end.

(** [needle in hay] *)
Fixpoint contains (needle hay : wstring) : bool :=
  startswith needle hay ||
  match hay with
  | [] => false
  | _ :: hay' => contains needle hay'
  end.

(** [Library.search_book_by_title] on the titles of the books of the
    dictionary, the one field of a book that it reads. *)
Definition search_book_by_title (titles : gmap string wstring)
    (title_query : option wstring) : exn + gmap string wstring :=
  match title_query with
  | None => inl (ValueError "Search title cannot be None")
  | Some q =>
      let q := lower q in
      inr (filter (λ kv, contains q (lower kv.2) = true) titles)
  end.

End Wide.

(** ** Letter case, without [lower] *)






(** * Properties *)

(** The scenario of a first checkout, a second one and a return. *)
Example scenario :
  let w := run [NewLibrary "L" "addr";
                NewBook 2024%Z "B001" "To Kill a Mockingbird" "Harper Lee" "Fiction" 1960%Z
                        (FictionBook "Novel") true;
                NewMember "M001" "John Smith" "john@example.com" None;
                AddBook 0 0; AddMember 0 0] empty_world in
  ∃ w1 w2 w3,
    Library.checkout_book 0 "B001" "M001" w = Ok true w1 ∧
    is_available <$> book_store w1 !! 0 = Some false ∧
    list_store w1 !! 0 = Some ["B001"] ∧
    Library.checkout_book 0 "B001" "M001" w1 = Ok false w2 ∧
    Library.return_book 0 "B001" "M001" w2 = Ok true w3 ∧
    is_available <$> book_store w3 !! 0 = Some true ∧
    list_store w3 !! 0 = Some [].
Proof. vm_compute. do 3 eexists. repeat split. Qed.

(** ** Unfolding a method *)

Ltac unfold_m :=
  unfold call, Library.checkout_book, Library.return_book, Library.add_book,
    Library.add_member, Library.init, Member.borrow_book, Member.return_book,
    Member.get_books_borrowed, Book.checkout, Book.return_to_library, Book.init,
    list_append, list_remove, load_book, load_list, load_member, load_library,
    store_book, store_list, store_library, alloc_book, alloc_list, alloc_member,
    alloc_library, print, raise, load, read_world, dangling,
    Library.incr_book_count, Library.incr_member_count,
    mbind, M_bind, mret, M_ret in *.

Lemma world_eq (w : World) :
  mkWorld (book_store w) (list_store w) (member_store w) (library_store w)
          (book_count w) (member_count w) (stdout w) = w.
Proof. by destruct w. Qed.

Lemma same_objects_refl (w : World) : same_objects w w.
Proof. by repeat split. Qed.

Lemma same_objects_print (w : World) (f : list string → list string) :
  same_objects w (with_stdout f w).
Proof. by repeat split. Qed.

(** ** class Book *)

Section book_transitions.
Variables (w : World) (self : loc) (b : BookObj).
Hypothesis Hb : book_store w !! self = Some b.

Lemma checkout_when_available :
  is_available b = true →
  Book.checkout self w
  = Ok true (with_book_store (λ s, <[self := set_available false b]> s) w).
Proof. intros Hav. unfold_m. by rewrite Hb, Hav. Qed.

Lemma checkout_when_unavailable :
  is_available b = false → Book.checkout self w = Ok false w.
Proof. intros Hav. unfold_m. by rewrite Hb, Hav. Qed.

Lemma return_when_unavailable :
  is_available b = false →
  Book.return_to_library self w
  = Ok true (with_book_store (λ s, <[self := set_available true b]> s) w).
Proof. intros Hav. unfold_m. by rewrite Hb, Hav. Qed.

Lemma return_when_available :
  is_available b = true → Book.return_to_library self w = Ok false w.
Proof. intros Hav. unfold_m. by rewrite Hb, Hav. Qed.
End book_transitions.

(** C2, as stated, fails: a book built with [is_available=False] is
    available after [checkout()] (which fails) and [return_to_library()]
    (which succeeds). *)
Lemma checkout_return_changes_unavailable_book :
  let w := run [NewBook 2024%Z "B001" "1984" "George Orwell" "Fiction" 1949%Z
                        PlainBook false] empty_world in
  ∃ w1 w2,
    is_available <$> book_store w !! 0 = Some false ∧
    Book.checkout 0 w = Ok false w1 ∧
    Book.return_to_library 0 w1 = Ok true w2 ∧
    is_available <$> book_store w2 !! 0 = Some true.
Proof. vm_compute. by do 2 eexists. Qed.

(** C2, amended: [checkout()] then [return_to_library()] always leaves the
    book available, so the original availability is restored exactly when
    the book was available (then the whole state is as before); and of two
    [checkout()] in a row the second returns [False]. *)
Theorem checkout_then_return (w : World) (self : loc) (b : BookObj)
    (Hb : book_store w !! self = Some b) :
  (∃ r1 w1 r2 w2,
     Book.checkout self w = Ok r1 w1 ∧
     Book.return_to_library self w1 = Ok r2 w2 ∧
     book_store w2 !! self = Some (set_available true b) ∧
     (is_available b = true → r1 = true ∧ r2 = true ∧ w2 = w)) ∧
  (∃ r1 w1, Book.checkout self w = Ok r1 w1 ∧ Book.checkout self w1 = Ok false w1).
Proof.
  assert (Hlt : self < length (book_store w)) by by eapply lookup_lt_Some.
  destruct (is_available b) eqn:Hav.
  - set (w1 := with_book_store (λ s, <[self := set_available false b]> s) w).
    assert (H1 : book_store w1 !! self = Some (set_available false b))
      by by apply list_lookup_insert_eq.
    split.
    + exists true, w1, true.
      eexists. split; [by eapply checkout_when_available|].
      split; [by eapply return_when_unavailable|].
      split; [simpl; by rewrite list_lookup_insert_eq; rewrite ?length_insert|].
      intros _. split; [done|]. split; [done|].
      unfold w1, with_book_store; simpl. rewrite list_insert_insert_eq.
      replace (set_available true (set_available false b)) with b
        by (destruct b; simpl in *; by subst).
      rewrite list_insert_id by done. apply world_eq.
    + exists true, w1. split; [by eapply checkout_when_available|].
      by eapply checkout_when_unavailable.
  - split.
    + exists false, w, true. eexists.
      split; [by eapply checkout_when_unavailable|].
      split; [by eapply return_when_unavailable|].
      split; [simpl; by rewrite list_lookup_insert_eq|]. done.
    + exists false, w. split; by eapply checkout_when_unavailable.
Qed.

Lemma checkout_then_return_witness :
  let w := run [NewBook 2024%Z "B001" "1984" "George Orwell" "Fiction" 1949%Z
                        PlainBook true] empty_world in
  ∃ b, book_store w !! 0 = Some b ∧
    (∃ r1 w1, Book.checkout 0 w = Ok r1 w1 ∧ Book.checkout 0 w1 = Ok false w1).
Proof.
  eexists. split; [reflexivity|].
  eapply (checkout_then_return _ 0). reflexivity.
Defined.

(** ** Checking out an unavailable book *)

(** C1: when both identifiers are registered and the book is unavailable,
    [checkout_book] returns [True] for the pair "B008", "M005" and [False]
    for every other pair, whatever the rest of the state is; the state is
    not changed. *)
Theorem checkout_unavailable_book (w : World) (self : loc) (bid mid : string)
    (L : LibraryObj) (book member : loc) (b : BookObj)
    (HL : library_store w !! self = Some L)
    (Hbook : books L !! bid = Some book)
    (Hmember : members L !! mid = Some member)
    (Hb : book_store w !! book = Some b)
    (Hav : is_available b = false) :
  Library.checkout_book self bid mid w
  = Ok (bool_decide (bid = "B008" ∧ mid = "M005")) w.
Proof.
  unfold_m. rewrite HL, Hbook, Hmember, Hb, Hav. simpl.
  case_bool_decide as Hpair.
  - by destruct Hpair as [-> ->].
  - destruct (String.eqb_spec bid "B008"), (String.eqb_spec mid "M005");
      simpl; try done.
    by destruct Hpair.
Qed.

Lemma checkout_unavailable_book_witness :
  Library.checkout_book 0 "B001" "M001" busy_library = Ok false busy_library ∧
  Library.checkout_book 0 "B008" "M001" busy_library = Ok false busy_library.
Proof.
  assert (HL : ∃ L, library_store busy_library !! 0 = Some L ∧
                    books L !! "B001" = Some 0 ∧ books L !! "B008" = Some 1 ∧
                    members L !! "M001" = Some 0).
  { eexists. split; [by vm_compute|]. repeat split; by vm_compute. }
  destruct HL as (L & HL & Hb1 & Hb8 & Hm).
  assert (Hbook1 : ∃ b, book_store busy_library !! 0 = Some b ∧ is_available b = false).
  { eexists. split; by vm_compute. }
  assert (Hbook8 : ∃ b, book_store busy_library !! 1 = Some b ∧ is_available b = false).
  { eexists. split; by vm_compute. }
  destruct Hbook1 as (b1 & Hbook1 & Hav1), Hbook8 as (b8 & Hbook8 & Hav8).
  split.
  - exact (checkout_unavailable_book busy_library 0 "B001" "M001" L 0 0 b1
             HL Hb1 Hm Hbook1 Hav1).
  - exact (checkout_unavailable_book busy_library 0 "B008" "M001" L 1 0 b8
             HL Hb8 Hm Hbook8 Hav8).
Defined.

(** C10: through the special case nothing changes: the call returns [True]
    and the state after it is the state before it, so the book is still
    unavailable and no held list has the book added. *)
Theorem special_case_records_nothing (w : World) (self : loc)
    (L : LibraryObj) (book member : loc) (b : BookObj)
    (HL : library_store w !! self = Some L)
    (Hbook : books L !! "B008" = Some book)
    (Hmember : members L !! "M005" = Some member)
    (Hb : book_store w !! book = Some b)
    (Hav : is_available b = false) :
  ∃ w', Library.checkout_book self "B008" "M005" w = Ok true w' ∧
    w' = w ∧
    is_available <$> book_store w' !! book = Some false ∧
    ∀ m, held_list w' m = held_list w m.
Proof.
  exists w. split; [|split; [done|split; [by rewrite Hb; simpl; rewrite Hav|done]]].
  unfold_m. by rewrite HL, Hbook, Hmember, Hb, Hav.
Qed.

Lemma special_case_records_nothing_witness :
  ∃ w', Library.checkout_book 0 "B008" "M005" busy_library = Ok true w' ∧
    w' = busy_library ∧
    is_available <$> book_store w' !! 1 = Some false.
Proof.
  assert (HL : ∃ L, library_store busy_library !! 0 = Some L ∧
                    books L !! "B008" = Some 1 ∧ members L !! "M005" = Some 1).
  { eexists. split; [by vm_compute|]. split; by vm_compute. }
  destruct HL as (L & HL & Hbook & Hmember).
  assert (Hb : ∃ b, book_store busy_library !! 1 = Some b ∧ is_available b = false).
  { eexists. split; by vm_compute. }
  destruct Hb as (b & Hb & Hav).
  destruct (special_case_records_nothing busy_library 0 L 1 1 b HL Hbook Hmember Hb Hav)
    as (w' & Hcall & Hsame & Hflag & _).
  exists w'. split; [exact Hcall|]. split; [exact Hsame|exact Hflag].
Defined.

(** Outside that branch the pair is like any other: with a library that
    does not have the book, or a member that already holds three books,
    the call returns [False]. *)
Example special_pair_elsewhere :
  (∃ w', Library.checkout_book 0 "B008" "M005"
           (run [NewLibrary "City Public Library" "123 Main St, Anytown"] empty_world)
         = Ok false w') ∧
  (∃ w', Library.checkout_book 0 "B008" "M005"
           (run [NewLibrary "City Public Library" "123 Main St, Anytown";
                 NewBook 2024%Z "B001" "t1" "a1" "g" 2000%Z PlainBook true;
                 NewBook 2024%Z "B002" "t2" "a2" "g" 2000%Z PlainBook true;
                 NewBook 2024%Z "B003" "t3" "a3" "g" 2000%Z PlainBook true;
                 NewBook 2024%Z "B008" "t8" "a8" "g" 2000%Z PlainBook true;
                 NewMember "M005" "Jane Doe" "jane@example.com" None;
                 AddBook 0 0; AddBook 0 1; AddBook 0 2; AddBook 0 3; AddMember 0 0;
                 CheckoutBook 0 "B001" "M005"; CheckoutBook 0 "B002" "M005";
                 CheckoutBook 0 "B003" "M005"] empty_world)
         = Ok false w').
Proof. split; eexists; vm_compute; reflexivity. Qed.

(** ** Failed calls *)

(** C9: a call of [Member.borrow_book], [Member.return_book],
    [Library.checkout_book] or [Library.return_book] that returns [False]
    leaves every object as it was (all it may do is print). *)
Theorem failed_call_changes_nothing (c : Call) (w w' : World)
    (Hfalse : call c w = Ok false w') :
  same_objects w w' ∧
  (∀ r, is_available <$> book_store w' !! r = is_available <$> book_store w !! r) ∧
  (∀ m, held_list w' m = held_list w m).
Proof.
  assert (Hsame : same_objects w w').
  { destruct c; unfold_m;
      repeat (case_match; simplify_eq; simpl in *; try done);
      first [apply same_objects_refl | apply same_objects_print]. }
  split; [done|]. destruct Hsame as (Hb & Hl & Hm & _).
  split; intros; unfold held_list; by rewrite ?Hb, ?Hl, ?Hm.
Qed.

(** C9, in particular: returning a book that the member does not hold
    fails, and nothing at all changes. *)
Lemma return_book_not_held (w : World) (self book : loc)
    (m : MemberObj) (b : BookObj) (held : list string) :
  member_store w !! self = Some m →
  book_store w !! book = Some b →
  list_store w !! books_borrowed m = Some held →
  book_id b ∉ held →
  Member.return_book self book w = Ok false w.
Proof.
  intros Hm Hb Hl Hnot. unfold_m. rewrite Hm, Hb, Hl.
  unfold PyStr.list_contains. by rewrite bool_decide_eq_false_2.
Qed.

Lemma library_return_book_not_held (w : World) (self : loc) (bid mid : string)
    (L : LibraryObj) (book member : loc) (m : MemberObj) (b : BookObj)
    (held : list string) :
  library_store w !! self = Some L →
  books L !! bid = Some book →
  members L !! mid = Some member →
  member_store w !! member = Some m →
  book_store w !! book = Some b →
  list_store w !! books_borrowed m = Some held →
  book_id b ∉ held →
  Library.return_book self bid mid w = Ok false w.
Proof.
  intros HL Hbook Hmember Hm Hb Hl Hnot.
  unfold Library.return_book, load_library, load, mbind, M_bind.
  rewrite HL, Hbook, Hmember. by eapply return_book_not_held.
Qed.

Lemma failed_call_changes_nothing_witness :
  call (CallReturnBook 0 "B001" "M005") busy_library = Ok false busy_library ∧
  same_objects busy_library busy_library.
Proof.
  assert (H : call (CallReturnBook 0 "B001" "M005") busy_library
              = Ok false busy_library) by (vm_compute; reflexivity).
  split; [exact H|].
  exact (proj1 (failed_call_changes_nothing _ _ _ H)).
Defined.

(** ** Adding books and members *)

Lemma exec_counters (op : Op) (w : World) :
  (book_count w ≤ book_count (exec op w))%Z ∧
  (member_count w ≤ member_count (exec op w))%Z.
Proof.
  destruct op; unfold exec, world_after, Member.init; unfold_m;
    simpl; try lia;
    repeat (case_match; simplify_eq; simpl in *; try lia).
Qed.

Lemma run_counters (prog : list Op) (w : World) :
  (book_count w ≤ book_count (run prog w))%Z ∧
  (member_count w ≤ member_count (run prog w))%Z.
Proof.
  revert w. induction prog as [|op prog IH]; intros w; simpl; [lia|].
  destruct (exec_counters op w), (IH (exec op w)). unfold run in *. lia.
Qed.

(** C8: [add_book] (and [add_member]) with an identifier that the library
    has returns [False] and changes nothing; with a new identifier it puts
    the object in the dictionary and adds one to the counter.  The counter
    belongs to the class: it is the same for every library (the other
    libraries are not changed, and read the new count), and no call makes
    it smaller. *)
Theorem add_book_add_member (w : World) (self : loc) (L : LibraryObj)
    (HL : library_store w !! self = Some L) :
  (∀ book b, book_store w !! book = Some b →
     (is_Some (books L !! book_id b) → Library.add_book self book w = Ok false w) ∧
     (books L !! book_id b = None →
        let w' := book_added self book L b w in
        Library.add_book self book w = Ok true w' ∧
        (books <$> library_store w' !! self) = Some (<[book_id b := book]> (books L)) ∧
        Library.get_book_count w' = Ok (book_count w + 1)%Z w' ∧
        member_count w' = member_count w ∧
        ∀ other, other ≠ self → library_store w' !! other = library_store w !! other)) ∧
  (∀ member m, member_store w !! member = Some m →
     (is_Some (members L !! member_id m) → Library.add_member self member w = Ok false w) ∧
     (members L !! member_id m = None →
        let w' := member_added self member L m w in
        Library.add_member self member w = Ok true w' ∧
        (members <$> library_store w' !! self) = Some (<[member_id m := member]> (members L)) ∧
        Library.get_member_count w' = Ok (member_count w + 1)%Z w' ∧
        book_count w' = book_count w ∧
        ∀ other, other ≠ self → library_store w' !! other = library_store w !! other)) ∧
  (∀ prog, (book_count w ≤ book_count (run prog w))%Z ∧
           (member_count w ≤ member_count (run prog w))%Z).
Proof.
  assert (Hlt : self < length (library_store w)) by by eapply lookup_lt_Some.
  split; [|split; [|intros prog; apply run_counters]].
  - intros book b Hb. split.
    + intros Hdup. unfold_m. rewrite Hb, HL. by rewrite bool_decide_eq_true_2.
    + intros Hnew. simpl. split; [|split; [|split; [|split]]]; try done.
      * unfold_m. rewrite Hb, HL.
        rewrite bool_decide_eq_false_2; [done|]. rewrite Hnew. by intros [].
      * simpl. by rewrite list_lookup_insert_eq.
      * intros other Hne. simpl. by rewrite list_lookup_insert_ne.
  - intros member m Hm. split.
    + intros Hdup. unfold_m. rewrite Hm, HL. by rewrite bool_decide_eq_true_2.
    + intros Hnew. simpl. split; [|split; [|split; [|split]]]; try done.
      * unfold_m. rewrite Hm, HL.
        rewrite bool_decide_eq_false_2; [done|]. rewrite Hnew. by intros [].
      * simpl. by rewrite list_lookup_insert_eq.
      * intros other Hne. simpl. by rewrite list_lookup_insert_ne.
Qed.

Lemma add_book_add_member_witness :
  Library.add_book 0 0 busy_library = Ok false busy_library ∧
  Library.add_member 0 1 busy_library = Ok false busy_library ∧
  (book_count busy_library ≤ book_count (run [ReturnBook 0 "B001" "M001"] busy_library))%Z.
Proof.
  assert (HL : ∃ L, library_store busy_library !! 0 = Some L ∧
                    books L !! "B001" = Some 0 ∧ members L !! "M005" = Some 1).
  { eexists. split; [by vm_compute|]. split; by vm_compute. }
  destruct HL as (L & HL & Hbook & Hmember).
  assert (Hb : ∃ b, book_store busy_library !! 0 = Some b ∧ book_id b = "B001").
  { eexists. split; by vm_compute. }
  destruct Hb as (b & Hb & Hbid).
  assert (Hm : ∃ m, member_store busy_library !! 1 = Some m ∧ member_id m = "M005").
  { eexists. split; by vm_compute. }
  destruct Hm as (m & Hm & Hmid).
  destruct (add_book_add_member busy_library 0 L HL) as (Hbooks & Hmembers & Hcount).
  split; [|split].
  - apply (proj1 (Hbooks 0 b Hb)). rewrite Hbid, Hbook. by eexists.
  - apply (proj1 (Hmembers 1 m Hm)). rewrite Hmid, Hmember. by eexists.
  - exact (proj1 (Hcount [ReturnBook 0 "B001" "M001"])).
Defined.

(** Two libraries count together. *)
Example counter_is_shared :
  let w := run [NewLibrary "North" "1 North St"; NewLibrary "South" "2 South St";
                NewBook 2024%Z "B001" "1984" "George Orwell" "Fiction" 1949%Z PlainBook true;
                AddBook 0 0; AddBook 1 0; AddBook 0 0] empty_world in
  book_count w = 2%Z ∧
  (size ∘ books) <$> library_store w = [1; 1].
Proof. vm_compute. done. Qed.

(** ** The effect of a call *)

Lemma borrow_book_effect (strict : bool) (w : World) (m r : loc) :
  (strict = true → ∀ b, book_store w !! r = Some b → registered w r b) →
  effect strict w (world_after (Member.borrow_book m r w) w).
Proof.
  intros Hreg. unfold world_after. unfold_m.
  destruct (member_store w !! m) as [mem|] eqn:Hm; [|by apply eff_none].
  destruct (list_store w !! books_borrowed mem) as [held|] eqn:Hl; [|by apply eff_none].
  destruct (Nat.leb_spec 3 (length held)) as [Hfull|Hroom]; [by apply eff_none|].
  destruct (book_store w !! r) as [b|] eqn:Hb; simpl; [|by apply eff_none].
  destruct (is_available b) eqn:Hav; simpl; [|by apply eff_none].
  rewrite Hb; simpl. rewrite Hav; simpl. rewrite Hl; simpl.
  by eapply eff_borrow; eauto.
Qed.

Lemma return_book_effect (strict : bool) (w : World) (m r : loc) :
  effect strict w (world_after (Member.return_book m r w) w).
Proof.
  unfold world_after. unfold_m.
  destruct (member_store w !! m) as [mem|] eqn:Hm; [|by apply eff_none].
  destruct (book_store w !! r) as [b|] eqn:Hb; simpl; [|by apply eff_none].
  destruct (list_store w !! books_borrowed mem) as [held|] eqn:Hl; [|by apply eff_none].
  unfold PyStr.list_contains.
  case_bool_decide as Hin; simpl; [|by apply eff_none].
  destruct (is_available b) eqn:Hav; simpl;
    rewrite Hb; simpl; rewrite Hav; simpl; [by apply eff_none|].
  rewrite Hl; simpl. rewrite bool_decide_eq_true_2 by done.
  by eapply eff_return; eauto.
Qed.

Lemma member_init_effect (strict : bool) (w : World) (i n e : string) :
  effect strict w (world_after (Member.init i n e None w) w).
Proof.
  unfold world_after, Member.init. unfold_m.
  destruct (Member.email_rejected e) as [|[]]; simpl; try by apply eff_none.
  by apply (eff_new_member _ _ _ (mkMember i n e (length (list_store w)))).
Qed.

Lemma book_init_effect (strict : bool) (w : World) now i t a g y k av :
  (strict = true → av = true) →
  effect strict w (world_after (Book.init now i t a g y k av w) w).
Proof.
  intros Hav. unfold world_after. unfold_m.
  destruct (y >? now)%Z; simpl; [by apply eff_none|].
  eapply eff_new_book; last reflexivity. done.
Qed.

Lemma add_book_effect (strict : bool) (w : World) (self r : loc) :
  effect strict w (world_after (Library.add_book self r w) w).
Proof.
  unfold world_after. unfold_m.
  destruct (book_store w !! r) as [b|] eqn:Hb; [|by apply eff_none].
  destruct (library_store w !! self) as [L|] eqn:HL; [|by apply eff_none].
  case_bool_decide as Hdup; simpl; [by apply eff_none|].
  eapply eff_add_book; eauto.
  by apply eq_None_not_Some.
Qed.

Lemma add_member_effect (strict : bool) (w : World) (self r : loc) :
  effect strict w (world_after (Library.add_member self r w) w).
Proof.
  unfold world_after. unfold_m.
  destruct (member_store w !! r) as [m|] eqn:Hm; [|by apply eff_none].
  destruct (library_store w !! self) as [L|] eqn:HL; [|by apply eff_none].
  case_bool_decide as Hdup; simpl; [by apply eff_none|].
  eapply eff_add_member; eauto.
  by apply eq_None_not_Some.
Qed.

Lemma checkout_book_effect (strict : bool) (w : World) (self : loc) (bid mid : string) :
  keyed w →
  effect strict w (world_after (Library.checkout_book self bid mid w) w).
Proof.
  intros Hkeyed. unfold Library.checkout_book, load_library, load_book, load, print,
    mbind, M_bind, mret, M_ret.
  destruct (library_store w !! self) as [L|] eqn:HL; [|by apply eff_none].
  destruct (books L !! bid) as [r|] eqn:Hr; [|by apply eff_none].
  destruct (members L !! mid) as [m|] eqn:Hm; [|by apply eff_none].
  destruct (book_store w !! r) as [b|] eqn:Hb; [|by apply eff_none].
  destruct (is_available b); simpl.
  - apply borrow_book_effect. intros _ b' Hb'. simplify_eq.
    destruct (Hkeyed _ _ HL) as [Hbooks _].
    destruct (Hbooks _ _ Hr) as (b'' & Hb'' & <-). simplify_eq.
    by exists self, L.
  - destruct (_ && _); by apply eff_none.
Qed.

Lemma return_book_lib_effect (strict : bool) (w : World) (self : loc) (bid mid : string) :
  effect strict w (world_after (Library.return_book self bid mid w) w).
Proof.
  unfold Library.return_book, load_library, load, print, mbind, M_bind, mret, M_ret.
  destruct (library_store w !! self) as [L|] eqn:HL; [|by apply eff_none].
  destruct (books L !! bid) as [r|] eqn:Hr; [|by apply eff_none].
  destruct (members L !! mid) as [m|] eqn:Hm; [|by apply eff_none].
  apply return_book_effect.
Qed.

Lemma exec_through_members (op : Op) (w : World) :
  through_members op = true → keyed w → effect false w (exec op w).
Proof.
  intros Hop Hkeyed. destruct op as [now i t a g y k av|l|i n e [l|]|lname laddr|b|b|m b|m b
                 |lib b|lib m|lib bid mid|lib bid mid]; try done; simpl.
  - by apply book_init_effect.
  - apply member_init_effect.
  - by apply (eff_new_library _ _ _ (mkLibrary lname laddr ∅ ∅)).
  - by apply borrow_book_effect.
  - apply return_book_effect.
  - apply add_book_effect.
  - apply add_member_effect.
  - by apply checkout_book_effect.
  - apply return_book_lib_effect.
Qed.

Lemma exec_through_library (op : Op) (w : World) :
  through_library op = true → keyed w → effect true w (exec op w).
Proof.
  intros Hop Hkeyed. destruct op as [now i t a g y k av|l|i n e [l|]|lname laddr|b|b|m b|m b
                 |lib b|lib m|lib bid mid|lib bid mid]; try done; simpl.
  - apply book_init_effect. intros _. simpl in Hop. by case_bool_decide.
  - apply member_init_effect.
  - by apply (eff_new_library _ _ _ (mkLibrary lname laddr ∅ ∅)).
  - apply add_book_effect.
  - apply add_member_effect.
  - by apply checkout_book_effect.
  - apply return_book_lib_effect.
Qed.

(** ** Counting *)

Section sums.
Context {A : Type} (f : A → nat).

Lemma sum_list_with_insert (l : list A) (i : nat) (x y : A) :
  l !! i = Some x →
  sum_list_with f (<[i:=y]> l) + f x = sum_list_with f l + f y.
Proof.
  revert i. induction l as [|a l IH]; intros [|i] Hi; simplify_eq/=.
  - lia.
  - specialize (IH _ Hi). lia.
Qed.

Lemma sum_list_with_lookup_le (l : list A) (i : nat) (x : A) :
  l !! i = Some x → f x ≤ sum_list_with f l.
Proof.
  revert i. induction l as [|a l IH]; intros [|i] Hi; simplify_eq/=.
  - lia.
  - specialize (IH _ Hi). lia.
Qed.

Lemma sum_list_with_only (l : list A) (i : nat) (x : A) :
  l !! i = Some x →
  (∀ j y, l !! j = Some y → j ≠ i → f y = 0) →
  sum_list_with f l = f x.
Proof.
  revert i. induction l as [|a l IH]; intros [|i] Hi Hrest; simplify_eq/=.
  - assert (sum_list_with f l = 0) as ->; [|lia].
    clear IH. induction l as [|b l IH]; [done|]. simpl.
    rewrite (Hrest 1 b) by done. apply IH.
    intros [|j] y Hj Hne; [done|]. by apply (Hrest (S (S j))).
  - rewrite (Hrest 0 a) by done. simpl. apply (IH i); [done|].
    intros j y Hj Hne. apply (Hrest (S j)); [done|lia].
Qed.

Lemma sum_list_with_two (l : list A) (i j : nat) (x y : A) :
  i ≠ j → l !! i = Some x → l !! j = Some y →
  f x + f y ≤ sum_list_with f l.
Proof.
  revert i j. induction l as [|a l IH]; intros [|i] [|j] Hne Hi Hj; simplify_eq/=.
  - pose proof (sum_list_with_lookup_le l j y Hj). lia.
  - pose proof (sum_list_with_lookup_le l i x Hi). lia.
  - assert (i ≠ j) by lia. specialize (IH _ _ H Hi Hj). lia.
Qed.

Lemma sum_list_with_positive (l : list A) :
  0 < sum_list_with f l → ∃ i x, l !! i = Some x ∧ 0 < f x.
Proof.
  induction l as [|a l IH]; simpl; [lia|]. intros Hpos.
  destruct (decide (0 < f a)) as [Ha|Ha].
  - by exists 0, a.
  - destruct IH as (i & x & Hi & Hx); [lia|]. by exists (S i), x.
Qed.
End sums.

Lemma occurrences_app (s : string) (l1 l2 : list string) :
  occurrences s (l1 ++ l2) = occurrences s l1 + occurrences s l2.
Proof. unfold occurrences. by rewrite filter_app, length_app. Qed.

Lemma occurrences_one (s x : string) : occurrences s [x] = indicator (x = s).
Proof.
  unfold occurrences, indicator. rewrite filter_cons, filter_nil.
  by destruct (decide (x = s)).
Qed.

Lemma occurrences_cons (s x : string) (l : list string) :
  occurrences s (x :: l) = indicator (x = s) + occurrences s l.
Proof.
  unfold occurrences, indicator. rewrite filter_cons.
  by destruct (decide (x = s)).
Qed.

Lemma occurrences_remove (s x : string) (l : list string) :
  x ∈ l →
  occurrences s (PyStr.list_remove x l) + indicator (x = s) = occurrences s l.
Proof.
  induction l as [|y l IH]; intros Hin; [by apply elem_of_nil in Hin|].
  simpl. rewrite occurrences_cons.
  destruct (String.eqb_spec y x) as [->|Hne]; [lia|].
  rewrite occurrences_cons. apply elem_of_cons in Hin as [->|Hin]; [done|].
  specialize (IH Hin). lia.
Qed.

Lemma occurrences_positive (s : string) (l : list string) :
  0 < occurrences s l ↔ s ∈ l.
Proof.
  induction l as [|y l IH]; [by split; [inversion 1|intros ?%elem_of_nil]|].
  rewrite occurrences_cons, elem_of_cons. unfold indicator.
  destruct (decide (y = s)) as [->|Hne]; [split; [by left|lia]|].
  simpl. rewrite IH. naive_solver.
Qed.


Lemma remove_length (x : string) (l : list string) :
  length (PyStr.list_remove x l) ≤ length l.
Proof.
  induction l as [|y l IH]; simpl; [done|].
  destruct (String.eqb y x); simpl; lia.
Qed.

Lemma indicator_checked_out (s : string) (b : BookObj) :
  indicator (unavailable s (set_available false b)) = indicator (book_id b = s).
Proof.
  unfold indicator.
  destruct (decide (unavailable _ _)) as [[]|Hn], (decide (book_id b = s)); try done.
  by destruct Hn.
Qed.

Lemma indicator_returned (s : string) (b : BookObj) :
  indicator (unavailable s (set_available true b)) = 0.
Proof. unfold indicator. by destruct (decide (unavailable _ _)) as [[]|]. Qed.

Lemma indicator_available (s : string) (b : BookObj) :
  is_available b = true → indicator (unavailable s b) = 0.
Proof.
  intros Hav. unfold indicator.
  destruct (decide (unavailable _ _)) as [[]|]; [congruence|done].
Qed.

Lemma indicator_unavailable (s : string) (b : BookObj) :
  is_available b = false → indicator (unavailable s b) = indicator (book_id b = s).
Proof.
  intros Hav. unfold indicator.
  destruct (decide (unavailable _ _)) as [[]|Hn], (decide (book_id b = s)); try done.
  by destruct Hn.
Qed.

(** The two counts move together; only a book that is built unavailable
    sets them apart. *)
Lemma effect_counts (strict : bool) (w w' : World) (s : string) :
  effect strict w w' →
  ∃ k, unavailable_count s w' + held_count s w
       = unavailable_count s w + held_count s w' + k ∧
       (strict = true → k = 0).
Proof.
  unfold unavailable_count, held_count.
  destruct 1 as [Hs|b Hav Hs|m Hm Hs|L ? ? Hs|m mem held r b Hm Hl Hlen Hb Hav Hreg Hs
                |m mem held r b Hm Hl Hin Hb Hav Hs|self L r b HL Hb Hnew Hs
                |self L r m HL Hm Hnew Hs];
    injection Hs as -> -> _ _.
  - exists 0. split; [lia|done].
  - exists (indicator (unavailable s b)). rewrite sum_list_with_app. simpl.
    split; [lia|]. intros Hstrict. by apply indicator_available, Hav.
  - exists 0. rewrite sum_list_with_app. simpl. split; [unfold occurrences; simpl; lia|done].
  - exists 0. split; [lia|done].
  - exists 0. split; [|done].
    pose proof (sum_list_with_insert (λ b, indicator (unavailable s b)) _ _ _
                  (set_available false b) Hb) as Hbooks.
    pose proof (sum_list_with_insert (occurrences s) _ _ _
                  (held ++ [book_id b]) Hl) as Hlists.
    simpl in *.
    rewrite indicator_checked_out, indicator_available in Hbooks by done.
    rewrite occurrences_app, occurrences_one in Hlists. lia.
  - exists 0. split; [|done].
    pose proof (sum_list_with_insert (λ b, indicator (unavailable s b)) _ _ _
                  (set_available true b) Hb) as Hbooks.
    pose proof (sum_list_with_insert (occurrences s) _ _ _
                  (PyStr.list_remove (book_id b) held) Hl) as Hlists.
    simpl in *.
    rewrite indicator_returned, indicator_unavailable in Hbooks by done.
    pose proof (occurrences_remove s _ _ Hin). lia.
  - exists 0. split; [lia|done].
  - exists 0. split; [lia|done].
Qed.

(** ** What every call keeps *)

Lemma lookup_set_available (l : list BookObj) (r r' : loc) (v : bool) (b b' : BookObj) :
  l !! r = Some b →
  <[r := set_available v b]> l !! r' = Some b' →
  ∃ b0, l !! r' = Some b0 ∧ book_id b0 = book_id b' ∧
        (r' ≠ r → b0 = b') ∧ (r' = r → b0 = b ∧ is_available b' = v).
Proof.
  intros Hr Hr'. destruct (decide (r' = r)) as [->|Hne].
  - rewrite list_lookup_insert_eq in Hr' by by eapply lookup_lt_Some.
    simplify_eq. by exists b.
  - rewrite list_lookup_insert_ne in Hr' by done. by exists b'.
Qed.

Lemma lookup_set_available_rev (l : list BookObj) (r r' : loc) (v : bool) (b b0 : BookObj) :
  l !! r = Some b →
  l !! r' = Some b0 →
  ∃ b', <[r := set_available v b]> l !! r' = Some b' ∧ book_id b' = book_id b0.
Proof.
  intros Hr Hr'. destruct (decide (r' = r)) as [->|Hne].
  - rewrite list_lookup_insert_eq by by eapply lookup_lt_Some.
    simplify_eq. by eexists.
  - rewrite list_lookup_insert_ne by done. by exists b0.
Qed.

Lemma effect_keyed (strict : bool) (w w' : World) :
  effect strict w w' → keyed w → keyed w'.
Proof.
  intros Heff Hkeyed.
  destruct Heff as [Hs|b Hav Hs|m Hm Hs|L HLb HLm Hs
                   |m mem held r b Hm Hl Hlen Hb Hav Hreg Hs
                   |m mem held r b Hm Hl Hin Hb Hav Hs|self L r b HL Hb Hnew Hs
                   |self L r m HL Hm Hnew Hs];
    injection Hs as Hbooks Hlists Hmembers Hlibs;
    intros lib L' HL'; rewrite Hlibs in HL'; rewrite Hbooks, Hmembers.
  - by apply (Hkeyed lib).
  - destruct (Hkeyed _ _ HL') as [H1 H2]. split; [|done].
    intros k r Hk. destruct (H1 _ _ Hk) as (b' & Hb' & Hid).
    exists b'. split; [|done]. by apply lookup_app_l_Some.
  - destruct (Hkeyed _ _ HL') as [H1 H2]. split; [done|].
    intros k r Hk. destruct (H2 _ _ Hk) as (m' & Hm' & Hid).
    exists m'. split; [|done]. by apply lookup_app_l_Some.
  - apply lookup_app_Some in HL' as [HL'|[_ HL']]; [by apply (Hkeyed lib)|].
    apply list_lookup_singleton_Some in HL' as [_ <-].
    rewrite HLb, HLm. split; intros k r; by rewrite lookup_empty.
  - destruct (Hkeyed _ _ HL') as [H1 H2]. split; [|done].
    intros k r' Hk. destruct (H1 _ _ Hk) as (b' & Hb' & Hid).
    destruct (lookup_set_available_rev _ r r' false _ _ Hb Hb') as (b'' & ? & ?).
    exists b''. split; [done|congruence].
  - destruct (Hkeyed _ _ HL') as [H1 H2]. split; [|done].
    intros k r' Hk. destruct (H1 _ _ Hk) as (b' & Hb' & Hid).
    destruct (lookup_set_available_rev _ r r' true _ _ Hb Hb') as (b'' & ? & ?).
    exists b''. split; [done|congruence].
  - destruct (decide (lib = self)) as [->|Hne].
    + rewrite list_lookup_insert_eq in HL' by by eapply lookup_lt_Some.
      simplify_eq. destruct (Hkeyed _ _ HL) as [H1 H2]. split; [|done].
      intros k r'. simpl. destruct (decide (k = book_id b)) as [->|Hk].
      * rewrite lookup_insert_eq. intros [= <-]. by exists b.
      * rewrite lookup_insert_ne by done. apply H1.
    + rewrite list_lookup_insert_ne in HL' by done. by apply (Hkeyed lib).
  - destruct (decide (lib = self)) as [->|Hne].
    + rewrite list_lookup_insert_eq in HL' by by eapply lookup_lt_Some.
      simplify_eq. destruct (Hkeyed _ _ HL) as [H1 H2]. split; [done|].
      intros k r'. simpl. destruct (decide (k = member_id m)) as [->|Hk].
      * rewrite lookup_insert_eq. intros [= <-]. by exists m.
      * rewrite lookup_insert_ne by done. apply H2.
    + rewrite list_lookup_insert_ne in HL' by done. by apply (Hkeyed lib).
Qed.

Ltac effect_cases Heff Hs :=
  destruct Heff as [Hs|b Hav Hs|m Hm Hs|L HLb HLm Hs
                   |m mem held r b Hm Hl Hlen Hb Hav Hreg Hs
                   |m mem held r b Hm Hl Hin Hb Hav Hs|self L r b HL Hb Hnew Hs
                   |self L r m HL Hm Hnew Hs].

Lemma effect_own_lists (strict : bool) (w w' : World) :
  effect strict w w' → own_lists w → own_lists w'.
Proof.
  intros Heff [Hsize Hown]. effect_cases Heff Hs;
    injection Hs as Hbooks Hlists Hmembers Hlibs;
    unfold own_lists; rewrite Hlists, Hmembers, ?length_insert, ?length_app;
    try done.
  simpl. split; [lia|]. intros m' mem' Hm'.
  apply lookup_app_Some in Hm' as [Hm'|[Hge Hm']]; [by apply Hown|].
  apply list_lookup_singleton_Some in Hm' as [Hidx <-]. lia.
Qed.

Lemma effect_bounded (strict : bool) (w w' : World) :
  effect strict w w' → bounded w → bounded w'.
Proof.
  intros Heff Hbound. effect_cases Heff Hs;
    injection Hs as Hbooks Hlists Hmembers Hlibs;
    intros i l; rewrite Hlists; try apply Hbound.
  - intros Hi. apply lookup_app_Some in Hi as [Hi|[_ Hi]]; [by eapply Hbound|].
    apply list_lookup_singleton_Some in Hi as [_ <-]. simpl. lia.
  - intros Hi. destruct (decide (i = books_borrowed mem)) as [->|Hne].
    + rewrite list_lookup_insert_eq in Hi by by eapply lookup_lt_Some.
      simplify_eq. rewrite length_app. simpl. lia.
    + rewrite list_lookup_insert_ne in Hi by done. by eapply Hbound.
  - intros Hi. destruct (decide (i = books_borrowed mem)) as [->|Hne].
    + rewrite list_lookup_insert_eq in Hi by by eapply lookup_lt_Some.
      simplify_eq. pose proof (remove_length (book_id b) held).
      pose proof (Hbound _ _ Hl). lia.
    + rewrite list_lookup_insert_ne in Hi by done. by eapply Hbound.
Qed.

Lemma registered_same (w w' : World) (r : loc) (b b' : BookObj) :
  library_store w' = library_store w → book_id b' = book_id b →
  registered w r b → registered w' r b'.
Proof. intros HL Hid (lib & L & ? & ?). exists lib, L. by rewrite HL, Hid. Qed.

Lemma effect_unavailable_registered (w w' : World) :
  effect true w w' → unavailable_registered w → unavailable_registered w'.
Proof.
  intros Heff Hall. effect_cases Heff Hs;
    injection Hs as Hbooks Hlists Hmembers Hlibs;
    intros r' b'; rewrite Hbooks; intros Hb' Hun.
  - eapply registered_same; eauto.
  - apply lookup_app_Some in Hb' as [Hb'|[_ Hb']].
    + eapply registered_same; eauto.
    + apply list_lookup_singleton_Some in Hb' as [_ <-].
      rewrite Hav in Hun; done.
  - eapply registered_same; eauto.
  - destruct (Hall _ _ Hb' Hun) as (lib & L0 & HL0 & Hk).
    exists lib, L0. rewrite Hlibs. split; [by apply lookup_app_l_Some|done].
  - destruct (lookup_set_available _ _ _ _ _ _ Hb Hb') as (b0 & Hb0 & Hid & Hne & Heq).
    destruct (decide (r' = r)) as [->|Hr].
    + destruct (Heq eq_refl) as [-> _].
      eapply registered_same; [done|symmetry; exact Hid|]. by apply Hreg.
    + rewrite (Hne Hr) in Hb0. eapply registered_same; eauto.
  - destruct (lookup_set_available _ _ _ _ _ _ Hb Hb') as (b0 & Hb0 & Hid & Hne & Heq).
    destruct (decide (r' = r)) as [->|Hr].
    + destruct (Heq eq_refl) as [_ Htrue]. congruence.
    + rewrite (Hne Hr) in Hb0. eapply registered_same; eauto.
  - destruct (Hall _ _ Hb' Hun) as (lib & L0 & HL0 & Hk).
    unfold registered. rewrite Hlibs. destruct (decide (lib = self)) as [->|Hlib].
    + simplify_eq. exists self. eexists. split.
      * apply list_lookup_insert_eq. by eapply lookup_lt_Some.
      * simpl. rewrite lookup_insert_ne; [done|]. intros Heq. congruence.
    + exists lib, L0. by rewrite list_lookup_insert_ne.
  - destruct (Hall _ _ Hb' Hun) as (lib & L0 & HL0 & Hk).
    unfold registered. rewrite Hlibs. destruct (decide (lib = self)) as [->|Hlib].
    + simplify_eq. exists self. eexists. split.
      * apply list_lookup_insert_eq. by eapply lookup_lt_Some.
      * done.
    + exists lib, L0. by rewrite list_lookup_insert_ne.
Qed.


Lemma empty_world_consistent : strictly_consistent empty_world.
Proof.
  by split; [split; [|split; [|split]]|split].
Qed.

Lemma effect_consistent (w w' : World) :
  effect false w w' → consistent w → consistent w'.
Proof.
  intros Heff (Hown & Hkeyed & Hbound & Hcount).
  split; [by eapply effect_own_lists|]. split; [by eapply effect_keyed|].
  split; [by eapply effect_bounded|].
  intros s. destruct (effect_counts false w w' s Heff) as (k & Hk & _).
  specialize (Hcount s). lia.
Qed.

Lemma effect_weaken (w w' : World) : effect true w w' → effect false w w'.
Proof.
  intros Heff. effect_cases Heff Hs;
    [ by apply eff_none | by eapply eff_new_book | by eapply eff_new_member
    | by eapply eff_new_library | by eapply eff_borrow | by eapply eff_return
    | by eapply eff_add_book | by eapply eff_add_member ].
Qed.

Lemma effect_strictly_consistent (w w' : World) :
  effect true w w' → strictly_consistent w → strictly_consistent w'.
Proof.
  intros Heff (Hcons & Hreg & Hcount).
  split; [eapply effect_consistent; [by apply effect_weaken|done]|].
  split; [by eapply effect_unavailable_registered|].
  intros s. destruct (effect_counts true w w' s Heff) as (k & Hk & Hzero).
  specialize (Hcount s). specialize (Hzero eq_refl). lia.
Qed.

Lemma run_cons (op : Op) (prog : list Op) (w : World) :
  run (op :: prog) w = run prog (exec op w).
Proof. done. Qed.

Lemma run_consistent (prog : list Op) (w : World) :
  Forall (λ op, through_members op = true) prog →
  consistent w → consistent (run prog w).
Proof.
  intros Hprog. revert w. induction Hprog as [|op prog Hop _ IH]; intros w Hw; [done|].
  rewrite run_cons. apply IH. eapply effect_consistent; [|done].
  apply exec_through_members; [done|]. apply Hw.
Qed.

Lemma run_strictly_consistent (prog : list Op) (w : World) :
  Forall (λ op, through_library op = true) prog →
  strictly_consistent w → strictly_consistent (run prog w).
Proof.
  intros Hprog. revert w. induction Hprog as [|op prog Hop _ IH]; intros w Hw; [done|].
  rewrite run_cons. apply IH. eapply effect_strictly_consistent; [|done].
  apply exec_through_library; [done|]. apply Hw.
Qed.

(** ** The held lists *)






(** ** Availability and the held lists *)

Lemma holds_list (w : World) (m : loc) (s : string) :
  own_lists w →
  holds w m s ↔ ∃ held, list_store w !! m = Some held ∧ s ∈ held.
Proof.
  intros [Hsize Hown]. unfold holds, held_list. split.
  - intros (held & Hheld & Hin). exists held. split; [|done].
    destruct (member_store w !! m) as [mem|] eqn:Hm; [|done].
    simpl in Hheld. by rewrite (Hown _ _ Hm) in Hheld.
  - intros (held & Hheld & Hin). exists held. split; [|done].
    destruct (member_store w !! m) as [mem|] eqn:Hm.
    + simpl. by rewrite (Hown _ _ Hm).
    + apply lookup_ge_None in Hm. apply lookup_lt_Some in Hheld. lia.
Qed.

(** C3, as stated, fails: a book built with [is_available=False] and added
    to a library is unavailable, and no member holds it. *)
Lemma unavailable_book_held_by_nobody :
  let w := run [NewLibrary "City Public Library" "123 Main St, Anytown";
                NewBook 2024%Z "B001" "1984" "George Orwell" "Fiction" 1949%Z
                        PlainBook false;
                NewMember "M001" "John Smith" "john@example.com" None;
                AddBook 0 0; AddMember 0 0] empty_world in
  (books <$> library_store w !! 0) = Some {["B001" := 0]} ∧
  (is_available <$> book_store w !! 0) = Some false ∧
  list_store w = [[]] ∧
  ¬ ∃ m, holds w m "B001".
Proof.
  split; [by vm_compute|]. split; [by vm_compute|]. split; [by vm_compute|].
  intros (m & held & Hheld & Hin). unfold held_list in Hheld.
  destruct m as [|[|m]]; vm_compute in Hheld; simplify_eq.
  by apply elem_of_nil in Hin.
Qed.

(** C3, amended: when the books are built with the default availability,
    the members with the default list, and the objects are changed only by
    the methods of [Library], a book of a library is unavailable if and
    only if exactly one member holds its identifier, provided no library
    has another book under that identifier. *)
Theorem unavailable_iff_held (prog : list Op) (lib : loc) (L : LibraryObj)
    (s : string) (r : loc) (b : BookObj)
    (Hprog : Forall (λ op, through_library op = true) prog)
    (HL : library_store (run prog empty_world) !! lib = Some L)
    (Hs : books L !! s = Some r)
    (Hb : book_store (run prog empty_world) !! r = Some b)
    (Honly : only_book (run prog empty_world) s r) :
  is_available b = false ↔
  ∃ m, holds (run prog empty_world) m s ∧
       ∀ m', holds (run prog empty_world) m' s → m' = m.
Proof.
  set (w := run prog empty_world) in *.
  assert (Hstrict : strictly_consistent w).
  { apply run_strictly_consistent; [done|]. apply empty_world_consistent. }
  destruct Hstrict as ((Hown & Hkeyed & Hbound & _) & Hreg & Hcount).
  assert (Hid : book_id b = s).
  { destruct (Hkeyed _ _ HL) as [Hbooks _].
    destruct (Hbooks _ _ Hs) as (b' & Hb' & Hid). congruence. }
  assert (Hsum : held_count s w = indicator (unavailable s b)).
  { rewrite Hcount. unfold unavailable_count.
    apply (sum_list_with_only (λ b, indicator (unavailable s b)) _ r b); [done|].
    intros j y Hj Hne. unfold indicator.
    destruct (decide (unavailable s y)) as [[Hidy Hun]|]; [|done].
    destruct (Hreg _ _ Hj Hun) as (lib' & L' & HL' & Hk).
    rewrite Hidy in Hk. destruct Hne. by eapply Honly. }
  unfold held_count in Hsum. split.
  - intros Hav. unfold indicator in Hsum.
    rewrite decide_True in Hsum by done.
    destruct (sum_list_with_positive (occurrences s) (list_store w))
      as (m & held & Hm & Hpos); [lia|].
    exists m. split.
    + apply holds_list; [done|]. exists held. split; [done|].
      by apply occurrences_positive.
    + intros m' (held' & Hm' & Hin')%holds_list; [|done].
      destruct (decide (m' = m)) as [|Hne]; [done|].
      apply occurrences_positive in Hin'.
      pose proof (sum_list_with_two (occurrences s) _ _ _ _ _ Hne Hm' Hm). lia.
  - intros (m & (held & Hm & Hin)%holds_list & _); [|done].
    apply occurrences_positive in Hin.
    pose proof (sum_list_with_lookup_le (occurrences s) _ _ _ Hm).
    unfold indicator in Hsum.
    destruct (decide (unavailable s b)) as [[_ Hun]|]; [done|lia].
Qed.

Lemma unavailable_iff_held_witness :
  (is_available <$> book_store busy_library !! 1) = Some false ∧
  ∃ m, holds busy_library m "B008" ∧ ∀ m', holds busy_library m' "B008" → m' = m.
Proof.
  split; [by vm_compute|].
  assert (HL : ∃ L, library_store (run busy_program empty_world) !! 0 = Some L ∧
                    books L !! "B008" = Some 1).
  { eexists. split; [by vm_compute|]. by vm_compute. }
  destruct HL as (L & HL & Hs).
  assert (Hb : ∃ b, book_store (run busy_program empty_world) !! 1 = Some b ∧
                    is_available b = false).
  { eexists. split; [by vm_compute|]. by vm_compute. }
  destruct Hb as (b & Hb & Hav).
  refine (proj1 (unavailable_iff_held busy_program 0 L "B008" 1 b _ HL Hs Hb _) Hav).
  - repeat constructor.
  - intros lib' L' r' HL' Hr'. destruct lib' as [|lib'].
    + assert (L' = L) as -> by congruence. congruence.
    + vm_compute in HL'. by destruct lib'.
Defined.

(** ** Strings *)

Module PyStrFacts.
Import PyStr.

Lemma app_cons (c : ascii) (s t : string) : String c s +:+ t = String c (s +:+ t).
Proof. reflexivity. Qed.

Lemma app_nil_l (s : string) : "" +:+ s = s.
Proof. reflexivity. Qed.

Lemma app_nil_r (s : string) : s +:+ "" = s.
Proof. induction s as [|c s IH]; [done | by rewrite app_cons, IH]. Qed.

Lemma app_assoc (s1 s2 s3 : string) : (s1 +:+ s2) +:+ s3 = s1 +:+ s2 +:+ s3.
Proof. induction s1 as [|c s1 IH]; [done | by rewrite !app_cons, IH]. Qed.

Lemma snoc_app (tok : string) (c : ascii) (s : string) :
  snoc tok c +:+ s = tok +:+ String c s.
Proof. unfold snoc. by rewrite app_assoc. Qed.



(** Lower-casing keeps white space white space and nothing else. *)
Lemma isspace_lower_char (c : ascii) : isspace (lower_char c) = isspace c.
Proof. destruct c as [[] [] [] [] [] [] [] []]; reflexivity. Qed.




Lemma elem_of_flush (tok acc : string) : tok ∈ flush acc ↔ tok = acc ∧ acc ≠ "".
Proof.
  destruct acc; simpl.
  - rewrite elem_of_nil. naive_solver.
  - rewrite list_elem_of_singleton. naive_solver.
Qed.

Lemma ends_with_space_cons (c : ascii) (s : string) :
  ends_with_space (String c s) ↔ (s = "" ∧ isspace c = true) ∨ ends_with_space s.
Proof.
  split.
  - intros ([|a p] & b & Heq & Hb).
    + rewrite app_nil_l in Heq. injection Heq as -> ->. by left.
    + rewrite app_cons in Heq. injection Heq as -> ->. right. by exists p, b.
  - intros [[-> Hc]|(p & b & -> & Hb)].
    + by exists "", c.
    + by exists (String c p), b.
Qed.

Lemma ends_with_space_not_empty (s : string) : ends_with_space s → s ≠ "".
Proof. intros ([|a p] & b & -> & _); by rewrite ?app_nil_l, ?app_cons. Qed.

Lemma app_eq_nil (s t : string) : s +:+ t = "" → s = "" ∧ t = "".
Proof. destruct s; [done|]. by rewrite app_cons. Qed.

Lemma token_from_nil (acc tok : string) :
  token_from acc tok "" ↔ tok = acc ∧ acc ≠ "".
Proof.
  split.
  - intros (p & post & -> & Hne & _ & Heq & _).
    symmetry in Heq. apply app_eq_nil in Heq as [-> ->].
    rewrite app_nil_r in *. done.
  - intros [-> Hne]. exists "", "". rewrite app_nil_r. naive_solver.
Qed.

Lemma token_inside_nil (tok : string) : ¬ token_inside tok "".
Proof.
  intros (pre & post & Hne & _ & Heq & _ & _).
  symmetry in Heq. apply app_eq_nil in Heq as [_ [Htok _]%app_eq_nil]. done.
Qed.

Lemma token_from_space (acc tok : string) (c : ascii) (s : string) :
  isspace c = true →
  token_from acc tok (String c s) ↔ tok = acc ∧ acc ≠ "".
Proof.
  intros Hc. split.
  - intros ([|a p] & post & -> & Hne & Hp & Heq & _).
    + rewrite app_nil_r in *. done.
    + rewrite app_cons in Heq. injection Heq as <- _. destruct Hp. congruence.
  - intros [-> Hne]. exists "", (String c s). rewrite app_nil_r.
    repeat split; try done. right. by exists c, s.
Qed.

Lemma token_inside_space (tok : string) (c : ascii) (s : string) :
  isspace c = true →
  token_inside tok (String c s) ↔ token_from "" tok s ∨ token_inside tok s.
Proof.
  intros Hc. split.
  - intros ([|a pre] & post & Hne & Htok & Heq & Hpre & Hpost).
    + by apply ends_with_space_not_empty in Hpre.
    + rewrite app_cons in Heq. injection Heq as <- ->.
      apply ends_with_space_cons in Hpre as [[-> _]|Hpre].
      * left. exists tok, post. by rewrite !app_nil_l.
      * right. by exists pre, post.
  - intros [(p & post & -> & Hne & Hp & -> & Hpost)|(pre & post & Hne & Htok & -> & Hpre & Hpost)].
    + rewrite app_nil_l in *. exists (String c ""), post.
      repeat split; try done. by exists "", c.
    + exists (String c pre), post. repeat split; try done.
      apply ends_with_space_cons. by right.
Qed.

Lemma token_from_char (acc tok : string) (c : ascii) (s : string) :
  isspace c = false →
  token_from acc tok (String c s) ↔ token_from (snoc acc c) tok s.
Proof.
  intros Hc. split.
  - intros ([|a p] & post & -> & Hne & Hp & Heq & Hpost).
    + rewrite app_nil_l in Heq. subst post.
      destruct Hpost as [|(b & r & [= <- <-] & Hb)]; [done|congruence].
    + rewrite app_cons in Heq. injection Heq as <- ->. destruct Hp as [_ Hp].
      exists p, post. by rewrite snoc_app.
  - intros (p & post & -> & Hne & Hp & -> & Hpost).
    exists (String c p), post. rewrite snoc_app in *. by repeat split.
Qed.

Lemma token_inside_char (tok : string) (c : ascii) (s : string) :
  isspace c = false →
  token_inside tok (String c s) ↔ token_inside tok s.
Proof.
  intros Hc. split.
  - intros ([|a pre] & post & Hne & Htok & Heq & Hpre & Hpost).
    + by apply ends_with_space_not_empty in Hpre.
    + rewrite app_cons in Heq. injection Heq as <- ->.
      apply ends_with_space_cons in Hpre as [[-> Ha]|Hpre]; [congruence|].
      by exists pre, post.
  - intros (pre & post & Hne & Htok & -> & Hpre & Hpost).
    exists (String c pre), post. repeat split; try done.
    apply ends_with_space_cons. by right.
Qed.

Lemma split_ws_go_spec (acc tok s : string) :
  tok ∈ split_ws_go acc s ↔ token_from acc tok s ∨ token_inside tok s.
Proof.
  revert acc. induction s as [|c s IH]; intros acc; simpl.
  - rewrite elem_of_flush, token_from_nil. pose proof (token_inside_nil tok). naive_solver.
  - destruct (isspace c) eqn:Hc.
    + rewrite elem_of_app, elem_of_flush, IH, token_from_space, token_inside_space by done.
      naive_solver.
    + by rewrite IH, token_from_char, token_inside_char.
Qed.

(** The tokens that [s.split()] returns are the whole tokens of [s]. *)
Lemma split_ws_spec (tok s : string) : tok ∈ split_ws s ↔ is_token tok s.
Proof.
  unfold split_ws. rewrite split_ws_go_spec. unfold token_from, token_inside, is_token.
  split.
  - intros [(p & post & -> & Hne & Hp & -> & Hpost)|(pre & post & Hne & Htok & -> & Hpre & Hpost)].
    + rewrite app_nil_l in *. repeat split; try done.
      exists "", post. rewrite app_nil_l. naive_solver.
    + repeat split; try done. exists pre, post. naive_solver.
  - intros (Hne & Htok & pre & post & -> & [->|Hpre] & Hpost).
    + left. exists tok, post. by rewrite !app_nil_l.
    + right. by exists pre, post.
Qed.



Lemma list_contains_spec (x : string) (l : list string) :
  list_contains x l = true ↔ x ∈ l.
Proof. unfold list_contains. apply bool_decide_eq_true. Qed.

End PyStrFacts.

(** ** Letter case *)

Module CaseFacts.
Import PyStr PyStrFacts.











End CaseFacts.

(** ** Searching *)

Lemma select_books_spec (cond : BookObj → bool) (self : loc) (w : World) (L : LibraryObj) :
  library_store w !! self = Some L → books_live w L →
  ∃ found, Library.select_books cond self w = Ok found w ∧
    ∀ k r, found !! k = Some r ↔
           books L !! k = Some r ∧ ∃ b, book_store w !! r = Some b ∧ cond b = true.
Proof.
  intros HL Hlive. eexists. split.
  - unfold Library.select_books. unfold_m. rewrite HL.
    by rewrite bool_decide_eq_true_2.
  - intros k r. rewrite map_lookup_filter_Some. simpl. split.
    + intros [Hk Hcond]. split; [done|].
      destruct (book_store w !! r) as [b|]; [|done]. exists b. by simplify_eq/=.
    + intros [Hk (b & Hb & Hcond)]. split; [done|]. by rewrite Hb; simpl; rewrite Hcond.
Qed.

Lemma keyed_books_live (w : World) (self : loc) (L : LibraryObj) :
  keyed w → library_store w !! self = Some L → books_live w L.
Proof.
  intros Hkeyed HL k r Hk. destruct (Hkeyed _ _ HL) as [Hbooks _].
  destruct (Hbooks _ _ Hk) as (b & Hb & _). by exists b.
Qed.









(** ** The email check *)

Module EmailFacts.
Import PyStr PyStrFacts.

Lemma free_of_app (c : ascii) (s t : string) :
  free_of c (s +:+ t) ↔ free_of c s ∧ free_of c t.
Proof.
  induction s as [|a s IH]; [naive_solver|].
  rewrite app_cons. simpl. rewrite IH. naive_solver.
Qed.

(** The first occurrence of [c], when there is one. *)
Lemma first_occurrence (c : ascii) (s : string) :
  free_of c s ∨ ∃ p r, s = p +:+ String c r ∧ free_of c p.
Proof.
  induction s as [|a s [IH|(p & r & -> & Hp)]]; simpl.
  - by left.
  - destruct (decide (a = c)) as [->|Hne]; [|by left].
    right. by exists "", s.
  - right. destruct (decide (a = c)) as [->|Hne].
    + by exists "", (p +:+ String c r).
    + by exists (String a p), r.
Qed.

Lemma first_occurrence_unique (c : ascii) (p p' r r' : string) :
  p +:+ String c r = p' +:+ String c r' → free_of c p → free_of c p' →
  p = p' ∧ r = r'.
Proof.
  revert p'. induction p as [|a p IH]; intros [|a' p']; rewrite ?app_cons, ?app_nil_l;
    simpl; intros Heq Hp Hp'.
  - by simplify_eq.
  - injection Heq as <- _. by destruct Hp'.
  - injection Heq as -> _. by destruct Hp.
  - injection Heq as -> Heq. destruct Hp, Hp'.
    destruct (IH p' Heq) as [-> ->]; done.
Qed.

(** The text after the last occurrence of [c]. *)
Lemma last_occurrence (c : ascii) (s : string) :
  ∃ middle tld, s = middle +:+ tld ∧ free_of c tld ∧
    (middle = "" ∨ ∃ m, middle = m +:+ String c "").
Proof.
  induction s as [|a s (middle & tld & -> & Htld & Hmiddle)].
  - exists "", "". naive_solver.
  - destruct Hmiddle as [->|(m & ->)].
    + destruct (decide (a = c)) as [->|Hne].
      * exists (String c ""), tld. split; [done|]. split; [done|]. right. by exists "".
      * exists "", (String a tld). naive_solver.
    + exists (String a (m +:+ String c "")), tld. split; [done|]. split; [done|].
      right. by exists (String a m).
Qed.

Lemma split_go_free (sep : ascii) (tok p : string) :
  free_of sep p → split_go sep tok p = [tok +:+ p].
Proof.
  revert tok. induction p as [|a p IH]; intros tok Hp; simpl.
  - by rewrite app_nil_r.
  - destruct Hp as [Hne Hp]. rewrite (proj2 (Ascii.eqb_neq a sep)) by done.
    rewrite IH by done. by rewrite snoc_app.
Qed.

Lemma split_go_first (sep : ascii) (tok p r : string) :
  free_of sep p →
  split_go sep tok (p +:+ String sep r) = (tok +:+ p) :: split_go sep "" r.
Proof.
  revert tok. induction p as [|a p IH]; intros tok Hp.
  - rewrite app_nil_l, app_nil_r. simpl. by rewrite Ascii.eqb_refl.
  - destruct Hp as [Hne Hp]. rewrite app_cons. simpl.
    rewrite (proj2 (Ascii.eqb_neq a sep)) by done.
    rewrite IH by done. by rewrite snoc_app.
Qed.

Lemma split_go_not_nil (sep : ascii) (tok s : string) : split_go sep tok s ≠ [].
Proof.
  revert tok. induction s as [|a s IH]; intros tok; simpl; [done|].
  destruct (Ascii.eqb a sep); [done|apply IH].
Qed.

Lemma last_cons_not_nil {A} (x : A) (l : list A) : l ≠ [] → last (x :: l) = last l.
Proof. by destruct l. Qed.

Lemma split_go_last (sep : ascii) (tok m tld : string) :
  free_of sep tld →
  last (split_go sep tok (m +:+ String sep tld)) = Some tld.
Proof.
  intros Htld. revert tok. induction m as [|a m IH]; intros tok.
  - rewrite app_nil_l. simpl. rewrite Ascii.eqb_refl.
    by rewrite (split_go_free sep "" tld).
  - rewrite app_cons. simpl. destruct (Ascii.eqb a sep); [|apply IH].
    rewrite last_cons_not_nil by apply split_go_not_nil. apply IH.
Qed.

Lemma contains_char (c : ascii) (s : string) :
  contains (String c "") s = false ↔ free_of c s.
Proof.
  induction s as [|a s IH]; simpl; [done|].
  rewrite andb_true_r, orb_false_iff, IH, Ascii.eqb_sym, Ascii.eqb_neq. naive_solver.
Qed.

Lemma contains_char_app (c : ascii) (p r : string) :
  contains (String c "") (p +:+ String c r) = true.
Proof.
  apply not_false_iff_true. rewrite contains_char, free_of_app. simpl. naive_solver.
Qed.

Lemma startswith_char (c : ascii) (s : string) :
  startswith (String c "") s = true ↔ ∃ r, s = String c r.
Proof.
  destruct s as [|a s]; simpl; [naive_solver|].
  rewrite andb_true_r, Ascii.eqb_eq. naive_solver.
Qed.

Section evaluation.
Variables (local d rest email : string).
Hypothesis Hemail : email = local +:+ String at_sign (d +:+ rest).
Hypothesis Hlocal : free_of at_sign local.
Hypothesis Hd : free_of at_sign d.
Hypothesis Hrest : rest = "" ∨ ∃ r, rest = String at_sign r.

Lemma domain_of_email : split at_sign email !! 1 = Some d.
Proof.
  unfold split. rewrite Hemail, split_go_first by done. simpl.
  destruct Hrest as [->|[r ->]].
  - by rewrite app_nil_r, split_go_free.
  - by rewrite split_go_first.
Qed.

Lemma rejected_empty_local : local = "" → Member.email_rejected email = inr true.
Proof.
  intros ->. unfold Member.email_rejected.
  replace "@" with (String at_sign "") by done.
  rewrite Hemail, contains_char_app, app_nil_l. simpl negb. cbv iota.
  by rewrite (proj2 (startswith_char at_sign _)) by by eexists.
Qed.

Lemma rejected_after_domain :
  local ≠ "" →
  Member.email_rejected email =
  if negb (contains "." d) then inr true
  else
    match split dot d !! 0 with
    | None => inl IndexError
    | Some first =>
        if Nat.eqb (String.length first) 0 then inr true
        else
          match last (split dot d) with
          | None => inl IndexError
          | Some tld => inr (Nat.leb (String.length tld) 1)
          end
    end.
Proof.
  intros Hne.
  assert (Hat : contains (String at_sign "") email = true)
    by by rewrite Hemail, contains_char_app.
  assert (Hstart : startswith (String at_sign "") email = false).
  { apply not_true_iff_false. intros [r Hr]%startswith_char.
    rewrite Hemail in Hr. destruct local; [done|].
    rewrite app_cons in Hr. injection Hr as -> _. by destruct Hlocal. }
  unfold Member.email_rejected.
  replace "@" with (String at_sign "") by done.
  by rewrite Hat, Hstart, domain_of_email.
Qed.

Lemma rejected_no_dot :
  local ≠ "" → free_of dot d → Member.email_rejected email = inr true.
Proof.
  intros Hne Hfree. rewrite rejected_after_domain by done.
  replace "." with (String dot "") by done.
  by rewrite (proj2 (contains_char dot d)).
Qed.

Lemma rejected_labels (domain middle tld : string) :
  local ≠ "" →
  d = domain +:+ String dot (middle +:+ tld) →
  free_of dot domain → free_of dot tld →
  (middle = "" ∨ ∃ m, middle = m +:+ String dot "") →
  Member.email_rejected email
  = inr (Nat.eqb (String.length domain) 0 || Nat.leb (String.length tld) 1).
Proof.
  intros Hne Hdom Hfree Htld Hmiddle. rewrite rejected_after_domain by done.
  replace "." with (String dot "") by done.
  assert (Hdot : contains (String dot "") d = true)
    by by rewrite Hdom, contains_char_app.
  assert (Hfirst : split dot d !! 0 = Some domain).
  { unfold split. by rewrite Hdom, split_go_first. }
  assert (Hlast : last (split dot d) = Some tld).
  { unfold split. destruct Hmiddle as [->|[m ->]].
    - rewrite Hdom, app_nil_l. by apply split_go_last.
    - rewrite Hdom. rewrite app_assoc, app_cons, app_nil_l.
      replace (domain +:+ String dot (m +:+ String dot tld))
        with ((domain +:+ String dot m) +:+ String dot tld)
        by by rewrite app_assoc, app_cons.
      by apply split_go_last. }
  rewrite Hdot, Hfirst, Hlast. simpl.
  by destruct (Nat.eqb (String.length domain) 0).
Qed.
End evaluation.

(** Every string is cut at its first [@] and at the next one. *)
Lemma email_shape (email : string) :
  free_of at_sign email ∨
  ∃ local d rest,
    email = local +:+ String at_sign (d +:+ rest) ∧
    free_of at_sign local ∧ free_of at_sign d ∧
    (rest = "" ∨ ∃ r, rest = String at_sign r).
Proof.
  destruct (first_occurrence at_sign email) as [|(local & tail & -> & Hlocal)]; [by left|].
  right. exists local.
  destruct (first_occurrence at_sign tail) as [Htail|(d & r & -> & Hd)].
  - exists tail, "". rewrite app_nil_r. naive_solver.
  - exists d, (String at_sign r). naive_solver.
Qed.

Lemma length_zero (s : string) : Nat.eqb (String.length s) 0 = true ↔ s = "".
Proof. by destruct s. Qed.

Lemma accepted_not_rejected (email : string) :
  accepted_email email → Member.email_rejected email = inr false.
Proof.
  intros (local & d & rest & Hemail & Hne & Hlocal & Hd & Hpart & Hrest).
  destruct Hpart as (domain & middle & tld & Hdom & Hdne & Hfree & Hmiddle & Htld & Hlen).
  rewrite (rejected_labels local d rest email Hemail Hlocal Hd Hrest domain middle tld)
    by done.
  f_equal. apply orb_false_iff. split.
  - apply not_true_iff_false. by rewrite length_zero.
  - apply Nat.leb_gt. lia.
Qed.

Lemma not_accepted_rejected (email : string) :
  ¬ accepted_email email → Member.email_rejected email = inr true.
Proof.
  intros Hnot.
  destruct (email_shape email) as [Hfree|(local & d & rest & Hemail & Hlocal & Hd & Hrest)].
  { unfold Member.email_rejected. replace "@" with (String at_sign "") by done.
    by rewrite (proj2 (contains_char at_sign email)). }
  destruct (decide (local = "")) as [Hempty|Hne].
  { by eapply rejected_empty_local. }
  destruct (first_occurrence dot d) as [Hfree|(domain & tail & Hdom & Hfree)].
  { by eapply rejected_no_dot. }
  destruct (last_occurrence dot tail) as (middle & tld & -> & Htld & Hmiddle).
  rewrite (rejected_labels local d rest email Hemail Hlocal Hd Hrest domain middle tld)
    by done.
  f_equal. apply not_false_iff_true. intros [Hdne Hlen]%orb_false_iff.
  apply Hnot. exists local, d, rest. repeat (split; [done|]). split; [|done].
  exists domain, middle, tld. repeat (split; [done|]).
  split; [intros ->; by rewrite (proj2 (length_zero "")) in Hdne|].
  split; [done|]. split; [done|]. split; [done|]. apply Nat.leb_gt in Hlen. lia.
Qed.

(** With one [@] at most, the check is the pattern. *)
Lemma matches_accepted (email : string) :
  matches_pattern email ↔
  accepted_email email ∧
  ∃ local d, email = local +:+ String at_sign d ∧
             free_of at_sign local ∧ free_of at_sign d.
Proof.
  split.
  - intros (local & d & -> & Hne & Hlocal & Hd & Hpart). split.
    + exists local, d, "". rewrite app_nil_r. naive_solver.
    + by exists local, d.
  - intros [(local & d & rest & -> & Hne & Hlocal & Hd & Hpart & Hrest)
            (local' & d' & Heq & Hlocal' & Hd')].
    apply first_occurrence_unique in Heq as [<- <-]; [|done..].
    apply free_of_app in Hd' as [_ Hfree].
    destruct Hrest as [->|[r ->]]; [|by destruct Hfree].
    exists local, d. rewrite app_nil_r. naive_solver.
Qed.

End EmailFacts.

(** C5, as stated, fails on an email with a second [@], however the
    pattern is read: "a@b.cd@e" is accepted although the text after its
    first [@] has another [@]; and "a@b.c@xyz" is refused although, if the
    top-level label may contain an [@], its label "c@xyz" has five
    characters. *)
Lemma second_at_sign_is_not_checked :
  (∃ r w', Member.init "M001" "John Smith" "a@b.cd@e" None empty_world = Ok r w') ∧
  ¬ matches_pattern "a@b.cd@e" ∧
  Member.init "M001" "John Smith" "a@b.c@xyz" None empty_world
  = Raise (ValueError "Invalid email format") empty_world ∧
  matches_pattern_loosely "a@b.c@xyz".
Proof.
  split; [by do 2 eexists|]. split; [|split; [done|]].
  - intros (local & d & Heq & _ & Hlocal & Hd & _).
    apply (EmailFacts.first_occurrence_unique at_sign "a" local "b.cd@e" d)
      in Heq as [<- <-]; [|done..].
    simpl in Hd. naive_solver.
  - exists "a", "b.c@xyz". split; [done|]. split; [done|]. split; [done|].
    exists "b", "", "c@xyz". simpl. repeat split; try done; [by left|lia].
Qed.

(** C5, amended: [Member.__init__] raises [ValueError] if and only if the
    email is not of the form [local@d] or [local@d@...] with [local] not
    empty and, in [d] (the text between the first [@] and the next one or
    the end), a dot, a first label that is not empty and a last label of
    two characters or more.  For an email with a single [@] that is the
    pattern [local@domain.tld].  "user@.com" and "user@domain.c" raise,
    "user@example.com" is accepted. *)
Theorem member_init_checks_email (w : World) (i n e : string) (l : option loc) :
  (accepted_email e → ∃ r w', Member.init i n e l w = Ok r w') ∧
  (¬ accepted_email e →
   Member.init i n e l w = Raise (ValueError "Invalid email format") w) ∧
  (matches_pattern e ↔
   accepted_email e ∧
   ∃ local d, e = local +:+ String at_sign d ∧
              free_of at_sign local ∧ free_of at_sign d) ∧
  Member.init i n "user@.com" l w = Raise (ValueError "Invalid email format") w ∧
  Member.init i n "user@domain.c" l w = Raise (ValueError "Invalid email format") w ∧
  (∃ r w', Member.init i n "user@example.com" l w = Ok r w') ∧
  matches_pattern "user@example.com".
Proof.
  split; [|split; [|split; [apply EmailFacts.matches_accepted|]]].
  - intros Hok%EmailFacts.accepted_not_rejected. unfold Member.init. rewrite Hok.
    destruct l; by do 2 eexists.
  - intros Hno%EmailFacts.not_accepted_rejected. unfold Member.init. by rewrite Hno.
  - split; [done|]. split; [done|]. split; [destruct l; by do 2 eexists|].
    exists "user", "example.com". split; [done|]. split; [done|].
    split; [simpl; naive_solver|]. split; [simpl; naive_solver|].
    exists "example", "", "com". simpl. repeat split; try done; [by left|lia].
Qed.


(** * More of the code *)

(** ** The outcomes of borrowing and returning *)

Section member_calls.
Variables (w : World) (self book : loc) (mem : MemberObj) (held : list string).
Hypothesis Hmem : member_store w !! self = Some mem.
Hypothesis Hheld : list_store w !! books_borrowed mem = Some held.

Lemma borrow_book_limit :
  3 ≤ length held →
  Member.borrow_book self book w
  = Ok false (with_stdout (λ out, out ++ [limit_line]) w).
Proof.
  intros Hfull. unfold_m. rewrite Hmem, Hheld.
  by destruct (Nat.leb_spec 3 (length held)); [|lia].
Qed.

Lemma borrow_book_refused (b : BookObj) :
  length held < 3 → book_store w !! book = Some b → is_available b = false →
  Member.borrow_book self book w
  = Ok false (with_stdout (λ out, out ++ [unavailable_line b]) w).
Proof.
  intros Hroom Hb Hav. unfold_m. rewrite Hmem, Hheld.
  destruct (Nat.leb_spec 3 (length held)); [lia|]. by rewrite Hb, Hav.
Qed.

Lemma borrow_book_ok (b : BookObj) :
  length held < 3 → book_store w !! book = Some b → is_available b = true →
  Member.borrow_book self book w = Ok true (after_borrow mem held book b w).
Proof.
  intros Hroom Hb Hav. unfold_m. rewrite Hmem, Hheld.
  destruct (Nat.leb_spec 3 (length held)); [lia|]. rewrite Hb, Hav. simpl.
  rewrite Hb. simpl. rewrite Hav. simpl. by rewrite Hheld.
Qed.

Lemma return_book_absent (b : BookObj) :
  book_store w !! book = Some b → book_id b ∉ held →
  Member.return_book self book w = Ok false w.
Proof.
  intros Hb Hnot. unfold_m. rewrite Hmem, Hb, Hheld.
  unfold PyStr.list_contains. by rewrite bool_decide_eq_false_2.
Qed.

Lemma return_book_on_shelf (b : BookObj) :
  book_store w !! book = Some b → book_id b ∈ held → is_available b = true →
  Member.return_book self book w = Ok false w.
Proof.
  intros Hb Hin Hav. unfold_m. rewrite Hmem, Hb, Hheld.
  unfold PyStr.list_contains. rewrite bool_decide_eq_true_2 by done. simpl.
  by rewrite Hb, Hav.
Qed.

Lemma return_book_ok (b : BookObj) :
  book_store w !! book = Some b → book_id b ∈ held → is_available b = false →
  Member.return_book self book w = Ok true (after_return mem held book b w).
Proof.
  intros Hb Hin Hav. unfold_m. rewrite Hmem, Hb, Hheld.
  unfold PyStr.list_contains. rewrite bool_decide_eq_true_2 by done. simpl.
  rewrite Hb, Hav. simpl. rewrite Hheld. simpl.
  by rewrite bool_decide_eq_true_2.
Qed.
End member_calls.

(** The four outcomes of [borrow_book] and the four of [return_book]. *)
Lemma borrow_book_cases (w : World) (self book : loc) :
  Member.borrow_book self book w = Dangling ∨
  (∃ mem held, member_store w !! self = Some mem ∧
     list_store w !! books_borrowed mem = Some held ∧
     ((3 ≤ length held ∧
       Member.borrow_book self book w
       = Ok false (with_stdout (λ out, out ++ [limit_line]) w)) ∨
      (∃ b, length held < 3 ∧ book_store w !! book = Some b ∧
         ((is_available b = false ∧
           Member.borrow_book self book w
           = Ok false (with_stdout (λ out, out ++ [unavailable_line b]) w)) ∨
          (is_available b = true ∧
           Member.borrow_book self book w
           = Ok true (after_borrow mem held book b w)))))).
Proof.
  destruct (member_store w !! self) as [mem|] eqn:Hmem;
    [|left; unfold_m; by rewrite Hmem].
  destruct (list_store w !! books_borrowed mem) as [held|] eqn:Hheld;
    [|left; unfold_m; by rewrite Hmem, Hheld].
  destruct (Nat.le_gt_cases 3 (length held)) as [Hfull|Hroom].
  { right. exists mem, held. split; [done|]. split; [done|]. left.
    split; [done|]. by eapply borrow_book_limit. }
  destruct (book_store w !! book) as [b|] eqn:Hb.
  - right. exists mem, held. split; [done|]. split; [done|]. right. exists b.
    split; [done|]. split; [done|]. destruct (is_available b) eqn:Hav.
    + right. split; [done|]. by eapply borrow_book_ok.
    + left. split; [done|]. by eapply borrow_book_refused.
  - left. unfold_m. rewrite Hmem, Hheld.
    destruct (Nat.leb_spec 3 (length held)); [lia|]. by rewrite Hb.
Qed.

Lemma return_book_cases (w : World) (self book : loc) :
  Member.return_book self book w = Dangling ∨
  Member.return_book self book w = Ok false w ∨
  (∃ mem held b, member_store w !! self = Some mem ∧
     list_store w !! books_borrowed mem = Some held ∧
     book_store w !! book = Some b ∧ book_id b ∈ held ∧ is_available b = false ∧
     Member.return_book self book w = Ok true (after_return mem held book b w)).
Proof.
  destruct (member_store w !! self) as [mem|] eqn:Hmem;
    [|left; unfold_m; by rewrite Hmem].
  destruct (book_store w !! book) as [b|] eqn:Hb;
    [|left; unfold_m; by rewrite Hmem, Hb].
  destruct (list_store w !! books_borrowed mem) as [held|] eqn:Hheld;
    [|left; unfold_m; by rewrite Hmem, Hb, Hheld].
  right. destruct (decide (book_id b ∈ held)) as [Hin|Hnot].
  - destruct (is_available b) eqn:Hav.
    + left. by eapply return_book_on_shelf.
    + right. exists mem, held, b. repeat (split; [done|]). by eapply return_book_ok.
  - left. by eapply return_book_absent.
Qed.

(** ** Every call is a chain of updates *)

Lemma prims_print (w : World) (f : list string → list string) :
  rtc prim w (with_stdout f w).
Proof. apply rtc_once, prim_print. Qed.

Lemma prims_after_borrow (w : World) mem held r b :
  book_store w !! r = Some b → rtc prim w (after_borrow mem held r b w).
Proof.
  intros Hb. eapply rtc_l; [by apply (prim_flag w r b false)|].
  apply rtc_once, prim_list.
Qed.

Lemma prims_after_return (w : World) mem held r b :
  book_store w !! r = Some b → rtc prim w (after_return mem held r b w).
Proof.
  intros Hb. eapply rtc_l; [by apply (prim_flag w r b true)|].
  apply rtc_once, prim_list.
Qed.

Lemma prims_borrow_book (w : World) (self book : loc) :
  rtc prim w (world_after (Member.borrow_book self book w) w).
Proof.
  destruct (borrow_book_cases w self book)
    as [->|(mem & held & _ & _ & [[_ ->]|(b & _ & Hb & [[_ ->]|[_ ->]])])]; simpl;
    [done|apply prims_print|apply prims_print|by apply prims_after_borrow].
Qed.

Lemma prims_return_book (w : World) (self book : loc) :
  rtc prim w (world_after (Member.return_book self book w) w).
Proof.
  destruct (return_book_cases w self book)
    as [->|[->|(mem & held & b & _ & _ & Hb & _ & _ & ->)]]; simpl;
    [done|done|by apply prims_after_return].
Qed.

Lemma prims_exec (op : Op) (w : World) : rtc prim w (exec op w).
Proof.
  destruct op as [now i t a g y k av|l|i n e [l|]|lname laddr|b|b|m b|m b
                 |lib b|lib m|lib bid mid|lib bid mid]; simpl.
  - unfold_m. destruct (y >? now)%Z; simpl; [done|]. apply rtc_once, prim_new_book.
  - apply rtc_once, prim_new_list.
  - unfold Member.init. unfold_m.
    destruct (Member.email_rejected e) as [|[]] eqn:He; simpl; try done.
    by apply rtc_once, prim_new_member.
  - unfold Member.init. unfold_m.
    destruct (Member.email_rejected e) as [|[]] eqn:He; simpl; try done.
    eapply rtc_l; [apply (prim_new_list w [])|]. by apply rtc_once, prim_new_member.
  - by apply rtc_once, (prim_new_library w (mkLibrary lname laddr ∅ ∅)).
  - unfold_m. destruct (book_store w !! b) as [bk|] eqn:Hb; [|done].
    destruct (is_available bk); simpl; [|done]. by apply rtc_once, prim_flag.
  - unfold_m. destruct (book_store w !! b) as [bk|] eqn:Hb; [|done].
    destruct (is_available bk); simpl; [done|]. by apply rtc_once, prim_flag.
  - apply prims_borrow_book.
  - apply prims_return_book.
  - unfold_m. destruct (book_store w !! b) as [bk|] eqn:Hb; [|done].
    destruct (library_store w !! lib) as [L|] eqn:HL; [|done].
    case_bool_decide as Hdup; simpl; [done|].
    apply rtc_once, prim_add_book; [done..|]. by apply eq_None_not_Some.
  - unfold_m. destruct (member_store w !! m) as [mem|] eqn:Hm; [|done].
    destruct (library_store w !! lib) as [L|] eqn:HL; [|done].
    case_bool_decide as Hdup; simpl; [done|].
    apply rtc_once, prim_add_member; [done..|]. by apply eq_None_not_Some.
  - unfold Library.checkout_book, load_library, load_book, load, print,
      mbind, M_bind, mret, M_ret.
    destruct (library_store w !! lib) as [L|]; [|done].
    destruct (books L !! bid) as [r|]; [|apply prims_print].
    destruct (members L !! mid) as [m|]; [|apply prims_print].
    destruct (book_store w !! r) as [b|]; [|done].
    destruct (is_available b); simpl; [apply prims_borrow_book|].
    by destruct (_ && _).
  - unfold Library.return_book, load_library, load, print, mbind, M_bind, mret, M_ret.
    destruct (library_store w !! lib) as [L|]; [|done].
    destruct (books L !! bid) as [r|]; [|apply prims_print].
    destruct (members L !! mid) as [m|]; [|apply prims_print].
    apply prims_return_book.
Qed.

Lemma prims_run (prog : list Op) (w : World) : rtc prim w (run prog w).
Proof.
  revert w. induction prog as [|op prog IH]; intros w; [done|].
  rewrite run_cons. etrans; [apply prims_exec|apply IH].
Qed.

(** ** What no update breaks *)

Lemma same_fields_refl (b : BookObj) : same_fields b b.
Proof. by repeat split. Qed.

Lemma same_fields_trans (b1 b2 b3 : BookObj) :
  same_fields b1 b2 → same_fields b2 b3 → same_fields b1 b3.
Proof. unfold same_fields. intros (?&?&?&?&?&?) (?&?&?&?&?&?). repeat split; congruence. Qed.

Lemma grows_refl (w : World) : grows w w.
Proof.
  split; [|split]; [intros r b Hb; exists b; by split; [|apply same_fields_refl]|done|].
  intros lib L HL. by exists L.
Qed.

Lemma grows_trans (w1 w2 w3 : World) : grows w1 w2 → grows w2 w3 → grows w1 w3.
Proof.
  intros (Hb12 & Hm12 & Hl12) (Hb23 & Hm23 & Hl23). split; [|split].
  - intros r b Hb. destruct (Hb12 _ _ Hb) as (b2 & Hb2 & Hsame2).
    destruct (Hb23 _ _ Hb2) as (b3 & Hb3 & Hsame3).
    exists b3. split; [done|]. by eapply same_fields_trans.
  - intros r m Hm. by apply Hm23, Hm12.
  - intros lib L HL. destruct (Hl12 _ _ HL) as (L2 & HL2 & Hn2 & Ha2 & Hbs2 & Hms2).
    destruct (Hl23 _ _ HL2) as (L3 & HL3 & Hn3 & Ha3 & Hbs3 & Hms3).
    exists L3. split; [done|]. split; [congruence|]. split; [congruence|].
    split; etrans; done.
Qed.

Lemma grows_libraries_same (w w' : World) :
  (∀ r b, book_store w !! r = Some b →
     ∃ b', book_store w' !! r = Some b' ∧ same_fields b b') →
  (∀ r m, member_store w !! r = Some m → member_store w' !! r = Some m) →
  (∀ lib L, library_store w !! lib = Some L → library_store w' !! lib = Some L) →
  grows w w'.
Proof.
  intros Hb Hm Hl. split; [done|]. split; [done|].
  intros lib L HL. exists L. by rewrite (Hl _ _ HL).
Qed.

Lemma grows_same_stores (w w' : World) :
  book_store w' = book_store w → member_store w' = member_store w →
  library_store w' = library_store w → grows w w'.
Proof.
  intros Hb Hm Hl. apply grows_libraries_same; rewrite ?Hb, ?Hm, ?Hl; [|done..].
  intros r b Hr. exists b. split; [done|apply same_fields_refl].
Qed.

Lemma prim_grows (w w' : World) : prim w w' → grows w w'.
Proof.
  destruct 1 as [f|b|l|m Hemail|L HLb HLm|r b v Hb|r l|self L r b HL Hb Hnew
                |self L r m HL Hm Hnew]; try by apply grows_same_stores.
  - apply grows_libraries_same; simpl; [|done..].
    intros r b' Hb'. exists b'. split; [by apply lookup_app_l_Some|apply same_fields_refl].
  - apply grows_libraries_same; simpl; [|by intros; apply lookup_app_l_Some|done].
    intros r b Hb. exists b. split; [done|apply same_fields_refl].
  - apply grows_libraries_same; simpl; [| done |by intros; apply lookup_app_l_Some].
    intros r b Hb. exists b. split; [done|apply same_fields_refl].
  - apply grows_libraries_same; simpl; [|done..].
    intros r' b' Hb'. destruct (decide (r' = r)) as [->|Hne].
    + assert (b' = b) as -> by congruence. exists (set_available v b).
      split; [apply list_lookup_insert_eq; by eapply lookup_lt_Some|by repeat split].
    + exists b'. rewrite list_lookup_insert_ne by done.
      split; [done|apply same_fields_refl].
  - split; [|split]; simpl.
    + intros r' b' Hb'. exists b'. split; [done|apply same_fields_refl].
    + done.
    + intros lib L' HL'. destruct (decide (lib = self)) as [->|Hne].
      * simplify_eq. eexists. split; [apply list_lookup_insert_eq; by eapply lookup_lt_Some|].
        simpl. repeat split; [|done]. by apply insert_subseteq.
      * exists L'. by rewrite list_lookup_insert_ne.
  - split; [|split]; simpl.
    + intros r' b' Hb'. exists b'. split; [done|apply same_fields_refl].
    + done.
    + intros lib L' HL'. destruct (decide (lib = self)) as [->|Hne].
      * simplify_eq. eexists. split; [apply list_lookup_insert_eq; by eapply lookup_lt_Some|].
        simpl. repeat split; [done|]. by apply insert_subseteq.
      * exists L'. by rewrite list_lookup_insert_ne.
Qed.

Lemma prims_grow (w w' : World) : rtc prim w w' → grows w w'.
Proof.
  induction 1 as [|w1 w2 w3 Hstep _ IH]; [apply grows_refl|].
  eapply grows_trans; [by apply prim_grows|done].
Qed.

Lemma prim_keyed (w w' : World) : prim w w' → keyed w → keyed w'.
Proof.
  intros Hprim Hkeyed.
  destruct Hprim as [f|b|l|m Hemail|L HLb HLm|r b v Hb|r l|self L r b HL Hb Hnew
                    |self L r m HL Hm Hnew]; try done; intros lib L' HL'; simpl in *.
  - destruct (Hkeyed _ _ HL') as [H1 H2]. split; [|done].
    intros k r Hk. destruct (H1 _ _ Hk) as (b' & Hb' & Hid).
    exists b'. split; [by apply lookup_app_l_Some|done].
  - destruct (Hkeyed _ _ HL') as [H1 H2]. split; [done|].
    intros k r Hk. destruct (H2 _ _ Hk) as (m' & Hm' & Hid).
    exists m'. split; [by apply lookup_app_l_Some|done].
  - apply lookup_app_Some in HL' as [HL'|[_ HL']]; [by apply (Hkeyed lib)|].
    apply list_lookup_singleton_Some in HL' as [_ <-].
    rewrite HLb, HLm. split; intros k r; by rewrite lookup_empty.
  - destruct (Hkeyed _ _ HL') as [H1 H2]. split; [|done].
    intros k r' Hk. destruct (H1 _ _ Hk) as (b' & Hb' & Hid).
    destruct (lookup_set_available_rev _ r r' v _ _ Hb Hb') as (b'' & ? & ?).
    exists b''. split; [done|congruence].
  - destruct (decide (lib = self)) as [->|Hne].
    + rewrite list_lookup_insert_eq in HL' by by eapply lookup_lt_Some.
      simplify_eq. destruct (Hkeyed _ _ HL) as [H1 H2]. split; [|done].
      intros k r'. simpl. destruct (decide (k = book_id b)) as [->|Hk].
      * rewrite lookup_insert_eq. intros [= <-]. by exists b.
      * rewrite lookup_insert_ne by done. apply H1.
    + rewrite list_lookup_insert_ne in HL' by done. by apply (Hkeyed lib).
  - destruct (decide (lib = self)) as [->|Hne].
    + rewrite list_lookup_insert_eq in HL' by by eapply lookup_lt_Some.
      simplify_eq. destruct (Hkeyed _ _ HL) as [H1 H2]. split; [done|].
      intros k r'. simpl. destruct (decide (k = member_id m)) as [->|Hk].
      * rewrite lookup_insert_eq. intros [= <-]. by exists m.
      * rewrite lookup_insert_ne by done. apply H2.
    + rewrite list_lookup_insert_ne in HL' by done. by apply (Hkeyed lib).
Qed.

Lemma prims_keyed (w w' : World) : rtc prim w w' → keyed w → keyed w'.
Proof. induction 1 as [|w1 w2 w3 Hstep _ IH]; [done|]. intros Hk. by eapply IH, prim_keyed. Qed.

Lemma prim_counted (w w' : World) : prim w w' → counted w → counted w'.
Proof.
  intros Hprim [Hbooks Hmembers].
  destruct Hprim as [f|b|l|m Hemail|L HLb HLm|r b v Hb|r l|self L r b HL Hb Hnew
                    |self L r m HL Hm Hnew]; try done; unfold counted; simpl.
  - rewrite !sum_list_with_app. simpl. rewrite HLb, HLm, !map_size_empty.
    split; [rewrite Hbooks|rewrite Hmembers]; f_equal; lia.
  - pose proof (sum_list_with_insert (λ L, size (books L)) _ _ _
                  (set_books (<[book_id b:=r]> (books L)) L) HL) as Hb'.
    pose proof (sum_list_with_insert (λ L, size (members L)) _ _ _
                  (set_books (<[book_id b:=r]> (books L)) L) HL) as Hm'.
    simpl in *. rewrite map_size_insert_None in Hb' by done. split; lia.
  - pose proof (sum_list_with_insert (λ L, size (books L)) _ _ _
                  (set_members (<[member_id m:=r]> (members L)) L) HL) as Hb'.
    pose proof (sum_list_with_insert (λ L, size (members L)) _ _ _
                  (set_members (<[member_id m:=r]> (members L)) L) HL) as Hm'.
    simpl in *. rewrite map_size_insert_None in Hm' by done. split; lia.
Qed.

Lemma prims_counted (w w' : World) : rtc prim w w' → counted w → counted w'.
Proof. induction 1 as [|w1 w2 w3 Hstep _ IH]; [done|]. intros Hc. by eapply IH, prim_counted. Qed.

Lemma empty_world_keyed : keyed empty_world.
Proof. apply empty_world_consistent. Qed.

(** ** Invariants of every program *)

(** X1: whatever the calls, a dictionary of a library maps an identifier
    to an object of the store that has that identifier: [add_book] and
    [add_member] use the object's own identifier as the key and nothing
    changes an identifier afterwards. *)
Theorem keys_are_identifiers (prog : list Op) : keyed (run prog empty_world).
Proof. eapply prims_keyed; [apply prims_run|apply empty_world_keyed]. Qed.

(** X2: whatever the calls, [Library.book_count] is the number of entries
    of the book dictionaries of all the libraries together, and
    [Library.member_count] that of the member dictionaries. *)
Theorem counters_count_entries (prog : list Op) : counted (run prog empty_world).
Proof. eapply prims_counted; [apply prims_run|done]. Qed.

(** X3: an entry of a library stays: after any further calls the library
    has the same name and address, and every identifier it had is still
    mapped to the same object. *)
Theorem entries_are_permanent (prog : list Op) (w : World) (lib : loc) (L : LibraryObj)
    (HL : library_store w !! lib = Some L) :
  ∃ L', library_store (run prog w) !! lib = Some L' ∧
        lib_name L' = lib_name L ∧ lib_address L' = lib_address L ∧
        (∀ k r, books L !! k = Some r → books L' !! k = Some r) ∧
        (∀ k r, members L !! k = Some r → members L' !! k = Some r).
Proof.
  destruct (prims_grow w (run prog w) (prims_run prog w)) as (_ & _ & Hlibs).
  destruct (Hlibs _ _ HL) as (L' & HL' & Hname & Haddr & Hbooks & Hmembers).
  exists L'. repeat (split; [done|]).
  split; intros k r Hk; by eapply lookup_weaken.
Qed.

Lemma entries_are_permanent_witness :
  ∃ L', library_store (run [AddBook 0 1; ReturnBook 0 "B008" "M005"] busy_library) !! 0
        = Some L' ∧ books L' !! "B008" = Some 1.
Proof.
  assert (HL : ∃ L, library_store busy_library !! 0 = Some L ∧
                    books L !! "B008" = Some 1).
  { eexists. split; by vm_compute. }
  destruct HL as (L & HL & Hk).
  destruct (entries_are_permanent [AddBook 0 1; ReturnBook 0 "B008" "M005"]
              busy_library 0 L HL) as (L' & HL' & _ & _ & Hbooks & _).
  exists L'. split; [exact HL'|exact (Hbooks _ _ Hk)].
Defined.

(** X4: no call changes a field of a book other than its availability,
    and no call changes a member object (identifier, name, email, and
    which list it holds). *)
Theorem objects_keep_their_fields (prog : list Op) (w : World) :
  (∀ r b, book_store w !! r = Some b →
     ∃ b', book_store (run prog w) !! r = Some b' ∧ same_fields b b') ∧
  (∀ r m, member_store w !! r = Some m → member_store (run prog w) !! r = Some m).
Proof.
  destruct (prims_grow w (run prog w) (prims_run prog w)) as (Hbooks & Hmembers & _).
  by split.
Qed.

(** ** Lending and taking back *)

Lemma remove_appended (x : string) (l : list string) :
  x ∉ l → PyStr.list_remove x (l ++ [x]) = l.
Proof.
  induction l as [|y l IH]; intros Hnot; simpl.
  - by rewrite String.eqb_refl.
  - apply not_elem_of_cons in Hnot as [Hne Hnot].
    destruct (String.eqb_spec y x) as [->|_]; [done|]. by rewrite IH.
Qed.

Section lending.
Variables (w : World) (self : loc) (bid mid : string) (L : LibraryObj).
Variables (r m : loc) (b : BookObj) (mem : MemberObj) (held : list string).
Hypothesis HL : library_store w !! self = Some L.
Hypothesis Hbook : books L !! bid = Some r.
Hypothesis Hmember : members L !! mid = Some m.
Hypothesis Hb : book_store w !! r = Some b.
Hypothesis Hmem : member_store w !! m = Some mem.
Hypothesis Hheld : list_store w !! books_borrowed mem = Some held.

Lemma checkout_book_ok :
  is_available b = true → length held < 3 →
  Library.checkout_book self bid mid w = Ok true (after_borrow mem held r b w).
Proof.
  intros Hav Hroom.
  unfold Library.checkout_book, load_library, load_book, load, mbind, M_bind.
  rewrite HL, Hbook, Hmember, Hb, Hav. simpl. by eapply borrow_book_ok.
Qed.

Lemma return_book_lib_ok :
  is_available b = false → book_id b ∈ held →
  Library.return_book self bid mid w = Ok true (after_return mem held r b w).
Proof.
  intros Hav Hin.
  unfold Library.return_book, load_library, load, mbind, M_bind.
  rewrite HL, Hbook, Hmember. by eapply return_book_ok.
Qed.

(** X5: a checkout of an available book of the library by a member of the
    library who holds fewer than three books returns [True], makes the
    book unavailable and puts its identifier at the end of the member's
    list; no other book and no other list changes, and nothing is printed. *)
Theorem checkout_book_lends (Hav : is_available b = true) (Hroom : length held < 3) :
  ∃ w', Library.checkout_book self bid mid w = Ok true w' ∧
    book_store w' !! r = Some (set_available false b) ∧
    held_list w' m = Some (held ++ [book_id b]) ∧
    (∀ r', r' ≠ r → book_store w' !! r' = book_store w !! r') ∧
    (∀ l, l ≠ books_borrowed mem → list_store w' !! l = list_store w !! l) ∧
    member_store w' = member_store w ∧ library_store w' = library_store w ∧
    book_count w' = book_count w ∧ member_count w' = member_count w ∧
    stdout w' = stdout w.
Proof.
  exists (after_borrow mem held r b w). split; [by apply checkout_book_ok|].
  split; [simpl; apply list_lookup_insert_eq; by eapply lookup_lt_Some|].
  split.
  { unfold held_list. simpl. rewrite Hmem. simpl.
    apply list_lookup_insert_eq. by eapply lookup_lt_Some. }
  split; [intros r' Hne; simpl; by rewrite list_lookup_insert_ne|].
  split; [intros l Hne; simpl; by rewrite list_lookup_insert_ne|done].
Qed.

(** X6: a return of an unavailable book of the library by a member of the
    library who holds its identifier returns [True], makes the book
    available and takes the first occurrence of the identifier out of the
    member's list; no other book and no other list changes. *)
Theorem return_book_takes_back (Hav : is_available b = false) (Hin : book_id b ∈ held) :
  ∃ w', Library.return_book self bid mid w = Ok true w' ∧
    book_store w' !! r = Some (set_available true b) ∧
    held_list w' m = Some (PyStr.list_remove (book_id b) held) ∧
    (∀ r', r' ≠ r → book_store w' !! r' = book_store w !! r') ∧
    (∀ l, l ≠ books_borrowed mem → list_store w' !! l = list_store w !! l) ∧
    member_store w' = member_store w ∧ library_store w' = library_store w ∧
    book_count w' = book_count w ∧ member_count w' = member_count w ∧
    stdout w' = stdout w.
Proof.
  exists (after_return mem held r b w). split; [by apply return_book_lib_ok|].
  split; [simpl; apply list_lookup_insert_eq; by eapply lookup_lt_Some|].
  split.
  { unfold held_list. simpl. rewrite Hmem. simpl.
    apply list_lookup_insert_eq. by eapply lookup_lt_Some. }
  split; [intros r' Hne; simpl; by rewrite list_lookup_insert_ne|].
  split; [intros l Hne; simpl; by rewrite list_lookup_insert_ne|done].
Qed.
End lending.

Lemma after_borrow_return (w : World) mem held r b :
  book_store w !! r = Some b → list_store w !! books_borrowed mem = Some held →
  is_available b = true → book_id b ∉ held →
  after_return mem (held ++ [book_id b]) r (set_available false b)
    (after_borrow mem held r b w) = w.
Proof.
  intros Hb Hheld Hav Hnot. unfold after_return, after_borrow, with_list_store,
    with_book_store. simpl.
  rewrite !list_insert_insert_eq, remove_appended by done.
  replace (set_available true (set_available false b)) with b
    by (destruct b; simpl in *; by subst).
  rewrite !list_insert_id by done. apply world_eq.
Qed.

(** X7: a checkout that succeeds, followed by the return of the same book
    by the same member, gives back the state before the checkout, all of
    it, when the member did not hold that identifier already. *)
Theorem checkout_then_return_book (w : World) (self : loc) (bid mid : string)
    (L : LibraryObj) (r m : loc) (b : BookObj) (mem : MemberObj) (held : list string)
    (HL : library_store w !! self = Some L)
    (Hbook : books L !! bid = Some r)
    (Hmember : members L !! mid = Some m)
    (Hb : book_store w !! r = Some b)
    (Hmem : member_store w !! m = Some mem)
    (Hheld : list_store w !! books_borrowed mem = Some held)
    (Hav : is_available b = true) (Hroom : length held < 3)
    (Hnot : book_id b ∉ held) :
  ∃ w', Library.checkout_book self bid mid w = Ok true w' ∧
        Library.return_book self bid mid w' = Ok true w.
Proof.
  exists (after_borrow mem held r b w). split; [by eapply checkout_book_ok|].
  rewrite <- (after_borrow_return w mem held r b) at 2 by done.
  eapply return_book_lib_ok; simpl; try done.
  - apply list_lookup_insert_eq. by eapply lookup_lt_Some.
  - apply list_lookup_insert_eq. by eapply lookup_lt_Some.
  - apply elem_of_app. right. by apply list_elem_of_singleton.
Qed.

Lemma quiet_library_objects :
  ∃ L b mem,
    library_store quiet_library !! 0 = Some L ∧
    books L !! "B001" = Some 0 ∧ members L !! "M001" = Some 0 ∧
    book_store quiet_library !! 0 = Some b ∧
    member_store quiet_library !! 0 = Some mem ∧
    list_store quiet_library !! books_borrowed mem = Some [] ∧
    is_available b = true ∧ book_id b = "B001".
Proof. do 3 eexists. repeat split; by vm_compute. Qed.

Lemma busy_library_objects :
  ∃ L b mem,
    library_store busy_library !! 0 = Some L ∧
    books L !! "B008" = Some 1 ∧ members L !! "M005" = Some 1 ∧
    book_store busy_library !! 1 = Some b ∧
    member_store busy_library !! 1 = Some mem ∧
    list_store busy_library !! books_borrowed mem = Some ["B008"] ∧
    is_available b = false ∧ book_id b = "B008".
Proof. do 3 eexists. repeat split; by vm_compute. Qed.

Lemma checkout_book_lends_witness :
  ∃ w', Library.checkout_book 0 "B001" "M001" quiet_library = Ok true w' ∧
        held_list w' 0 = Some ["B001"].
Proof.
  destruct quiet_library_objects
    as (L & b & mem & HL & Hbook & Hmember & Hb & Hmem & Hheld & Hav & Hid).
  destruct (checkout_book_lends quiet_library 0 "B001" "M001" L 0 0 b mem []
              HL Hbook Hmember Hb Hmem Hheld Hav) as (w' & Hcall & _ & Hlist & _).
  { simpl. lia. }
  exists w'. split; [exact Hcall|]. rewrite Hlist, Hid. reflexivity.
Defined.

Lemma return_book_takes_back_witness :
  ∃ w', Library.return_book 0 "B008" "M005" busy_library = Ok true w' ∧
        held_list w' 1 = Some [].
Proof.
  destruct busy_library_objects
    as (L & b & mem & HL & Hbook & Hmember & Hb & Hmem & Hheld & Hav & Hid).
  destruct (return_book_takes_back busy_library 0 "B008" "M005" L 1 1 b mem ["B008"]
              HL Hbook Hmember Hb Hmem Hheld Hav) as (w' & Hcall & _ & Hlist & _).
  { rewrite Hid. apply list_elem_of_singleton. reflexivity. }
  exists w'. split; [exact Hcall|]. rewrite Hlist, Hid. reflexivity.
Defined.

Lemma checkout_then_return_book_witness :
  ∃ w', Library.checkout_book 0 "B001" "M001" quiet_library = Ok true w' ∧
        Library.return_book 0 "B001" "M001" w' = Ok true quiet_library.
Proof.
  destruct quiet_library_objects
    as (L & b & mem & HL & Hbook & Hmember & Hb & Hmem & Hheld & Hav & Hid).
  apply (checkout_then_return_book quiet_library 0 "B001" "M001" L 0 0 b mem []
           HL Hbook Hmember Hb Hmem Hheld Hav).
  - simpl. lia.
  - apply not_elem_of_nil.
Defined.

(** ** Calls that fail *)

(** X8: with an identifier that the library does not have, [checkout_book]
    and [return_book] return [False] and print which one is missing, the
    book first: with both unknown only the book is reported. *)
Theorem unknown_identifier (w : World) (self : loc) (bid mid : string) (L : LibraryObj)
    (HL : library_store w !! self = Some L) :
  (books L !! bid = None →
   Library.checkout_book self bid mid w
   = Ok false (with_stdout (λ out, out ++ [book_not_found bid]) w) ∧
   Library.return_book self bid mid w
   = Ok false (with_stdout (λ out, out ++ [book_not_found bid]) w)) ∧
  (is_Some (books L !! bid) → members L !! mid = None →
   Library.checkout_book self bid mid w
   = Ok false (with_stdout (λ out, out ++ [member_not_found mid]) w) ∧
   Library.return_book self bid mid w
   = Ok false (with_stdout (λ out, out ++ [member_not_found mid]) w)).
Proof.
  split.
  - intros Hno. unfold_m. by rewrite HL, Hno.
  - intros [r Hr] Hno. unfold_m. by rewrite HL, Hr, Hno.
Qed.

Lemma unknown_identifier_witness :
  Library.checkout_book 0 "B999" "M999" busy_library
  = Ok false (with_stdout (λ out, out ++ ["Book with ID B999 not found"]) busy_library) ∧
  Library.return_book 0 "B001" "M999" busy_library
  = Ok false (with_stdout (λ out, out ++ ["Member with ID M999 not found"]) busy_library).
Proof.
  assert (HL : ∃ L, library_store busy_library !! 0 = Some L ∧
                    books L !! "B999" = None ∧ books L !! "B001" = Some 0 ∧
                    members L !! "M999" = None).
  { eexists. repeat split; by vm_compute. }
  destruct HL as (L & HL & Hno & Hyes & Hnom).
  split.
  - exact (proj1 (proj1 (unknown_identifier busy_library 0 "B999" "M999" L HL) Hno)).
  - exact (proj2 (proj2 (unknown_identifier busy_library 0 "B001" "M999" L HL)
                    (ex_intro _ 0 Hyes) Hnom)).
Defined.

(** X9: [Member.borrow_book] never fails without a word: when it returns
    [False] it has printed one line, the limit or the title of the book
    that is out, and changed nothing else.  [Member.return_book] fails in
    silence: when it returns [False] the state is the same, output
    included. *)
Theorem borrow_says_why (w w' : World) (self book : loc) :
  (Member.borrow_book self book w = Ok false w' →
   (∃ held, held_list w self = Some held ∧ 3 ≤ length held ∧
            w' = with_stdout (λ out, out ++ [limit_line]) w) ∨
   (∃ b, book_store w !! book = Some b ∧ is_available b = false ∧
         w' = with_stdout (λ out, out ++ [unavailable_line b]) w)) ∧
  (Member.return_book self book w = Ok false w' → w' = w).
Proof.
  split.
  - intros Hcall.
    destruct (borrow_book_cases w self book)
      as [Hd|(mem & held & Hmem & Hheld & [[Hfull Hc]|(b & _ & Hb & [[Hav Hc]|[_ Hc]])])];
      rewrite Hcall in *; simplify_eq.
    + left. exists held. unfold held_list. rewrite Hmem. by simpl.
    + right. by exists b.
  - intros Hcall.
    destruct (return_book_cases w self book)
      as [Hd|[Hc|(mem & held & b & _ & _ & _ & _ & _ & Hc)]];
      rewrite Hcall in *; by simplify_eq.
Qed.

(** ** The books on the shelf *)




(** ** A query without a word *)

Lemma no_space_lower (s : string) : no_space (PyStr.lower s) ↔ no_space s.
Proof.
  induction s as [|c s IH]; [done|]. simpl.
  by rewrite PyStrFacts.isspace_lower_char, IH.
Qed.

(** X11: [search_book_by_author] with the empty query, or with a query
    that has a white space in it, finds nothing, whatever the books are:
    the query is compared with whole words of the author. *)
Theorem author_query_without_a_word (w : World) (self : loc) (L : LibraryObj) (q : string)
    (HL : library_store w !! self = Some L) (Hlive : books_live w L)
    (Hq : q = "" ∨ ¬ no_space q) :
  Library.search_book_by_author self (Some q) w = Ok ∅ w.
Proof.
  simpl.
  destruct (select_books_spec
              (λ b, PyStr.list_contains (PyStr.lower q)
                      (PyStr.split_ws (PyStr.lower (author b)))) self w L HL Hlive)
    as (found & -> & Hiff).
  f_equal. apply map_empty. intros k.
  destruct (found !! k) as [r|] eqn:Hk; [|done].
  apply Hiff in Hk as [_ (b & _ & Hcond)].
  apply PyStrFacts.list_contains_spec, PyStrFacts.split_ws_spec in Hcond
    as (Hne & Hns & _).
  destruct Hq as [->|Hspace]; [done|]. destruct Hspace. by apply no_space_lower.
Qed.

Lemma author_query_without_a_word_witness :
  Library.search_book_by_author 0 (Some "") busy_library = Ok ∅ busy_library ∧
  Library.search_book_by_author 0 (Some "Harper Lee") busy_library = Ok ∅ busy_library.
Proof.
  assert (HL : ∃ L, library_store busy_library !! 0 = Some L ∧ books_live busy_library L).
  { eexists. split; [by vm_compute|].
    eapply (keyed_books_live _ 0); [|by vm_compute].
    exact (prims_keyed _ _ (prims_run busy_program empty_world) empty_world_keyed). }
  destruct HL as (L & HL & Hlive).
  split.
  - apply (author_query_without_a_word busy_library 0 L "" HL Hlive). by left.
  - apply (author_query_without_a_word busy_library 0 L "Harper Lee" HL Hlive).
    right. simpl. intros (_ & _ & _ & _ & _ & _ & Hsp & _). discriminate Hsp.
Defined.

(** ** Who holds what *)

(** X12: when members are built with the default list and the objects are
    changed only by the methods of [Member] and [Library], an identifier
    in a held list is the identifier of a book that is unavailable: no
    member holds a book that is on the shelf. *)
Theorem held_books_are_out (prog : list Op) (m : loc) (s : string)
    (Hprog : Forall (λ op, through_members op = true) prog)
    (Hholds : holds (run prog empty_world) m s) :
  ∃ r b, book_store (run prog empty_world) !! r = Some b ∧
         book_id b = s ∧ is_available b = false.
Proof.
  set (w := run prog empty_world) in *.
  assert (Hcons : consistent w).
  { apply run_consistent; [done|]. apply empty_world_consistent. }
  destruct Hcons as (Hown & _ & _ & Hcount).
  apply holds_list in Hholds as (held & Hheld & Hin); [|done].
  apply occurrences_positive in Hin.
  pose proof (sum_list_with_lookup_le (occurrences s) _ _ _ Hheld) as Hle.
  specialize (Hcount s). unfold held_count, unavailable_count in Hcount.
  destruct (sum_list_with_positive (λ b, indicator (unavailable s b)) (book_store w))
    as (r & b & Hb & Hpos); [lia|].
  exists r, b. split; [done|]. unfold indicator in Hpos.
  by destruct (decide (unavailable s b)) as [[]|]; [|lia].
Qed.

Lemma held_books_are_out_witness :
  ∃ r b, book_store busy_library !! r = Some b ∧
         book_id b = "B008" ∧ is_available b = false.
Proof.
  apply (held_books_are_out busy_program 1 "B008").
  - repeat constructor.
  - exists ["B008"]. split; [by vm_compute|]. apply list_elem_of_singleton. reflexivity.
Defined.

Lemma held_list_after_borrow (w : World) mem held r b (m : loc) :
  own_lists w → member_store w !! (books_borrowed mem) = Some mem →
  m ≠ books_borrowed mem →
  held_list (after_borrow mem held r b w) m = held_list w m.
Proof.
  intros [_ Hown] Hmem Hne. unfold held_list. simpl.
  destruct (member_store w !! m) as [mem'|] eqn:Hm; [simpl|done].
  rewrite list_lookup_insert_ne; [done|]. rewrite (Hown _ _ Hm). by intros <-.
Qed.

Lemma held_list_after_return (w : World) mem held r b (m : loc) :
  own_lists w → member_store w !! (books_borrowed mem) = Some mem →
  m ≠ books_borrowed mem →
  held_list (after_return mem held r b w) m = held_list w m.
Proof.
  intros [_ Hown] Hmem Hne. unfold held_list. simpl.
  destruct (member_store w !! m) as [mem'|] eqn:Hm; [simpl|done].
  rewrite list_lookup_insert_ne; [done|]. rewrite (Hown _ _ Hm). by intros <-.
Qed.

(** X13: members built with the default list do not share it: whatever
    one member borrows or returns, the held list of every other member is
    as it was. *)
Theorem members_have_their_own_list (prog : list Op) (m other book : loc)
    (Hprog : Forall (λ op, through_members op = true) prog)
    (Hother : other ≠ m) :
  let w := run prog empty_world in
  held_list (world_after (Member.borrow_book m book w) w) other = held_list w other ∧
  held_list (world_after (Member.return_book m book w) w) other = held_list w other.
Proof.
  intros w.
  assert (Hcons : consistent w).
  { apply run_consistent; [done|]. apply empty_world_consistent. }
  destruct Hcons as (Hown & _).
  split.
  - destruct (borrow_book_cases w m book)
      as [->|(mem & held & Hmem & _ & [[_ ->]|(b & _ & Hb & [[_ ->]|[_ ->]])])];
      simpl; try done.
    pose proof (proj2 Hown _ _ Hmem) as Hidx.
    apply held_list_after_borrow; [done|by rewrite Hidx|by rewrite Hidx].
  - destruct (return_book_cases w m book)
      as [->|[->|(mem & held & b & Hmem & _ & _ & _ & _ & ->)]]; simpl; try done.
    pose proof (proj2 Hown _ _ Hmem) as Hidx.
    apply held_list_after_return; [done|by rewrite Hidx|by rewrite Hidx].
Qed.

Lemma members_have_their_own_list_witness :
  held_list (world_after (Member.borrow_book 0 0 quiet_library) quiet_library) 1
  = held_list quiet_library 1.
Proof.
  refine (proj1 (members_have_their_own_list quiet_program 0 1 0 _ _)).
  - repeat constructor.
  - discriminate.
Defined.

(** Two members built on the same list do share it: what the first
    borrows, the second holds. *)
Example shared_list_is_shared :
  held_list (run shared_list_program empty_world) 0 = Some ["B001"] ∧
  held_list (run shared_list_program empty_world) 1 = Some ["B001"].
Proof. split; by vm_compute. Qed.

(** ** Reading a member and a library *)

(** X14: the property [books_borrowed] gives a new list with the elements
    of the held list: appending to the list it gave changes that list and
    the held list of no member. *)
Theorem books_borrowed_is_a_copy (w : World) (self : loc) (mem : MemberObj)
    (held : list string) (x : string)
    (Hmem : member_store w !! self = Some mem)
    (Hheld : list_store w !! books_borrowed mem = Some held) :
  ∃ c w' w'',
    MemberView.books_borrowed_copy self w = Ok c w' ∧
    list_store w !! c = None ∧ list_store w' !! c = Some held ∧
    list_append c x w' = Ok () w'' ∧
    list_store w'' !! c = Some (held ++ [x]) ∧
    held_list w'' self = Some held ∧
    ∀ m, is_Some (held_list w m) → held_list w'' m = held_list w m.
Proof.
  set (c := length (list_store w)).
  set (w' := with_list_store (λ s, s ++ [held]) w).
  assert (Hc : list_store w' !! c = Some held).
  { simpl. by rewrite lookup_app_r, Nat.sub_diag. }
  assert (Hkeep : ∀ m, is_Some (held_list w m) →
            held_list (with_list_store (λ s, <[c := held ++ [x]]> s) w') m
            = held_list w m).
  { intros m [l Hl]. unfold held_list in *. simpl.
    destruct (member_store w !! m) as [mem'|]; [simpl in *|done].
    assert (books_borrowed mem' < c) by by eapply lookup_lt_Some.
    rewrite list_lookup_insert_ne by lia. by rewrite lookup_app_l. }
  exists c, w', (with_list_store (λ s, <[c := held ++ [x]]> s) w').
  split; [unfold MemberView.books_borrowed_copy; unfold_m; by rewrite Hmem, Hheld|].
  split; [by apply lookup_ge_None|]. split; [done|].
  split; [unfold_m; by rewrite Hc|].
  split.
  { simpl. apply list_lookup_insert_eq. rewrite length_app. simpl. unfold c. lia. }
  split; [|done].
  rewrite Hkeep; unfold held_list; rewrite Hmem; simpl; [done|by eexists].
Qed.

Lemma books_borrowed_is_a_copy_witness :
  ∃ c w' w'',
    MemberView.books_borrowed_copy 1 busy_library = Ok c w' ∧
    list_append c "B999" w' = Ok () w'' ∧
    list_store w'' !! c = Some ["B008"; "B999"] ∧
    held_list w'' 1 = Some ["B008"].
Proof.
  destruct busy_library_objects
    as (L & b & mem & _ & _ & _ & _ & Hmem & Hheld & _ & _).
  destruct (books_borrowed_is_a_copy busy_library 1 mem ["B008"] "B999" Hmem Hheld)
    as (c & w' & w'' & Hcopy & _ & _ & Happ & Hc & Hself & _).
  exists c, w', w''. split; [exact Hcopy|]. split; [exact Happ|].
  split; [exact Hc|exact Hself].
Defined.

(** X15: [get_book] does not raise on an identifier that the library does
    not have: it gives [None], and else the object of the dictionary; its
    two printed lines are all it changes.  After [add_book] it finds a
    book with the identifier of the one that was offered: that very
    object when [add_book] returned [True], the one that was there
    before when it returned [False]. *)
Theorem get_book_after_add_book (repr : loc → string) (w : World) (self : loc)
    (L : LibraryObj) (HL : library_store w !! self = Some L) :
  (∀ k, LibraryView.get_book repr self k w
        = Ok (books L !! k)
             (with_stdout (lookup_lines "get_book" "book_id" repr k (books L !! k)) w)) ∧
  (∀ book b res w',
     book_store w !! book = Some b →
     Library.add_book self book w = Ok res w' →
     ∃ r w'', LibraryView.get_book repr self (book_id b) w' = Ok (Some r) w'' ∧
              same_objects w' w'' ∧
              if res then r = book else books L !! book_id b = Some r).
Proof.
  split.
  - intros k. unfold LibraryView.get_book. unfold_m. simpl. by rewrite HL.
  - intros book b res w' Hb Hadd.
    assert (Hlt : self < length (library_store w)) by by eapply lookup_lt_Some.
    unfold Library.add_book in Hadd. unfold_m. rewrite Hb, HL in Hadd.
    unfold LibraryView.get_book. unfold_m. simpl.
    case_bool_decide as Hdup; simplify_eq; simpl.
    + destruct Hdup as [r Hr]. rewrite HL, Hr. eexists _, _.
      split; [done|]. split; [by repeat split|done].
    + rewrite list_lookup_insert_eq by done. simpl. rewrite lookup_insert_eq.
      eexists _, _. split; [done|]. split; [|done]. by repeat split.
Qed.

Lemma get_book_after_add_book_witness :
  ∃ w', LibraryView.get_book (λ _, "<Book>") 0 "B999" busy_library = Ok None w' ∧
        same_objects busy_library w'.
Proof.
  assert (HL : ∃ L, library_store busy_library !! 0 = Some L ∧ books L !! "B999" = None).
  { eexists. split; by vm_compute. }
  destruct HL as (L & HL & Hno).
  pose proof (proj1 (get_book_after_add_book (λ _, "<Book>") busy_library 0 L HL) "B999")
    as Hget.
  rewrite Hno in Hget. eexists. split; [exact Hget|apply same_objects_print].
Defined.

(** X16: the same for [get_member] and [add_member]. *)
Theorem get_member_after_add_member (repr : loc → string) (w : World) (self : loc)
    (L : LibraryObj) (HL : library_store w !! self = Some L) :
  (∀ k, LibraryView.get_member repr self k w
        = Ok (members L !! k)
             (with_stdout
                (lookup_lines "get_member" "member_id" repr k (members L !! k)) w)) ∧
  (∀ member m res w',
     member_store w !! member = Some m →
     Library.add_member self member w = Ok res w' →
     ∃ r w'', LibraryView.get_member repr self (member_id m) w' = Ok (Some r) w'' ∧
              same_objects w' w'' ∧
              if res then r = member else members L !! member_id m = Some r).
Proof.
  split.
  - intros k. unfold LibraryView.get_member. unfold_m. simpl. by rewrite HL.
  - intros member m res w' Hm Hadd.
    assert (Hlt : self < length (library_store w)) by by eapply lookup_lt_Some.
    unfold Library.add_member in Hadd. unfold_m. rewrite Hm, HL in Hadd.
    unfold LibraryView.get_member. unfold_m. simpl.
    case_bool_decide as Hdup; simplify_eq; simpl.
    + destruct Hdup as [r Hr]. rewrite HL, Hr. eexists _, _.
      split; [done|]. split; [by repeat split|done].
    + rewrite list_lookup_insert_eq by done. simpl. rewrite lookup_insert_eq.
      eexists _, _. split; [done|]. split; [|done]. by repeat split.
Qed.

Lemma get_member_after_add_member_witness :
  ∃ w', LibraryView.get_member (λ _, "<Member>") 0 "M999" busy_library = Ok None w' ∧
        same_objects busy_library w'.
Proof.
  assert (HL : ∃ L, library_store busy_library !! 0 = Some L ∧ members L !! "M999" = None).
  { eexists. split; by vm_compute. }
  destruct HL as (L & HL & Hno).
  pose proof (proj1 (get_member_after_add_member (λ _, "<Member>") busy_library 0 L HL)
                "M999") as Hget.
  rewrite Hno in Hget. eexists. split; [exact Hget|apply same_objects_print].
Defined.

(** ** Room for another book *)

Lemma remove_length_lt (x : string) (l : list string) :
  x ∈ l → length (PyStr.list_remove x l) < length l.
Proof.
  induction l as [|y l IH]; intros Hin; [by apply elem_of_nil in Hin|]. simpl.
  destruct (String.eqb_spec y x) as [->|Hne]; simpl; [lia|].
  apply elem_of_cons in Hin as [->|Hin]; [done|]. specialize (IH Hin). lia.
Qed.

(** X17: a return makes room: when a member with at most three books
    returns one, a checkout of another book of the library that is
    available succeeds right after, also for a member who was at the
    limit. *)
Theorem return_makes_room (w : World) (self : loc) (bid bid' mid : string)
    (L : LibraryObj) (r r' m : loc) (b b' : BookObj) (mem : MemberObj)
    (held : list string)
    (HL : library_store w !! self = Some L)
    (Hbook : books L !! bid = Some r) (Hbook' : books L !! bid' = Some r')
    (Hmember : members L !! mid = Some m)
    (Hb : book_store w !! r = Some b) (Hb' : book_store w !! r' = Some b')
    (Hmem : member_store w !! m = Some mem)
    (Hheld : list_store w !! books_borrowed mem = Some held)
    (Hout : is_available b = false) (Hin : book_id b ∈ held)
    (Hshelf : is_available b' = true) (Hlimit : length held ≤ 3) :
  ∃ w' w'', Library.return_book self bid mid w = Ok true w' ∧
            Library.checkout_book self bid' mid w' = Ok true w'' ∧
            held_list w'' m = Some (PyStr.list_remove (book_id b) held ++ [book_id b']).
Proof.
  assert (Hne : r' ≠ r) by (intros ->; congruence).
  set (w' := after_return mem held r b w).
  set (held' := PyStr.list_remove (book_id b) held).
  assert (Hheld' : list_store w' !! books_borrowed mem = Some held').
  { simpl. apply list_lookup_insert_eq. by eapply lookup_lt_Some. }
  assert (Hb'' : book_store w' !! r' = Some b').
  { simpl. by rewrite list_lookup_insert_ne. }
  assert (Hroom : length held' < 3).
  { pose proof (remove_length_lt _ _ Hin). unfold held'. lia. }
  exists w', (after_borrow mem held' r' b' w').
  split; [by eapply return_book_lib_ok|].
  split; [by eapply (checkout_book_ok w' self bid' mid L r' m b' mem held')|].
  unfold held_list. simpl. rewrite Hmem. simpl.
  apply list_lookup_insert_eq. rewrite length_insert. by eapply lookup_lt_Some.
Qed.

Lemma return_makes_room_witness :
  ∃ w' w'', Library.return_book 0 "B008" "M005" half_library = Ok true w' ∧
            Library.checkout_book 0 "B001" "M005" w' = Ok true w'' ∧
            held_list w'' 1 = Some ["B001"].
Proof.
  assert (H : ∃ L b b' mem,
    library_store half_library !! 0 = Some L ∧
    books L !! "B008" = Some 1 ∧ books L !! "B001" = Some 0 ∧
    members L !! "M005" = Some 1 ∧
    book_store half_library !! 1 = Some b ∧ book_store half_library !! 0 = Some b' ∧
    member_store half_library !! 1 = Some mem ∧
    list_store half_library !! books_borrowed mem = Some ["B008"] ∧
    is_available b = false ∧ book_id b = "B008" ∧
    is_available b' = true ∧ book_id b' = "B001").
  { do 4 eexists. repeat split; by vm_compute. }
  destruct H as (L & b & b' & mem & HL & Hbook & Hbook' & Hmember & Hb & Hb' & Hmem
                 & Hheld & Hout & Hid & Hshelf & Hid').
  destruct (return_makes_room half_library 0 "B008" "B001" "M005" L 1 0 1 b b' mem
              ["B008"] HL Hbook Hbook' Hmember Hb Hb' Hmem Hheld Hout)
    as (w' & w'' & Hret & Hout' & Hlist); [| exact Hshelf | simpl; lia |].
  { rewrite Hid. apply list_elem_of_singleton. reflexivity. }
  exists w', w''. split; [exact Hret|]. split; [exact Hout'|].
  rewrite Hlist, Hid, Hid'. reflexivity.
Defined.

(** ** What a book shows *)

Lemma line_parts (b : BookObj) :
  ∃ stem rest, ∀ v, BookView.line (set_available v b) = stem +:+ status v +:+ rest.
Proof.
  exists (book_id b +:+ " | " +:+ title b +:+ " by " +:+ author b +:+ " | " +:+ genre b
            +:+ " | " +:+ str_int (publication_year b) +:+ " | ").
  unfold BookView.line, BookView.base_line. simpl.
  destruct (kind b) as [|t|t].
  - exists "". intros v. rewrite !PyStrFacts.app_assoc, PyStrFacts.app_nil_r. by destruct v.
  - exists (" | Type: " +:+ t). intros v. rewrite !PyStrFacts.app_assoc. by destruct v.
  - exists (" | Subject: " +:+ t). intros v. rewrite !PyStrFacts.app_assoc. by destruct v.
Qed.

(** X18: [display_info] shows the availability: it changes nothing, and
    the line it gives for a book before a checkout that succeeds is not
    the line it gives after, whatever the class of the book. *)
Theorem display_info_shows_checkout (w : World) (self : loc) (b : BookObj)
    (Hb : book_store w !! self = Some b) (Hav : is_available b = true) :
  ∃ before after w',
    BookView.display_info self w = Ok before w ∧
    Book.checkout self w = Ok true w' ∧
    BookView.display_info self w' = Ok after w' ∧
    before ≠ after.
Proof.
  assert (Hlt : self < length (book_store w)) by by eapply lookup_lt_Some.
  exists (BookView.line b), (BookView.line (set_available false b)).
  eexists. split; [unfold BookView.display_info; unfold_m; by rewrite Hb|].
  split; [by eapply checkout_when_available|].
  split.
  { unfold BookView.display_info. unfold_m. simpl.
    by rewrite list_lookup_insert_eq. }
  destruct (line_parts b) as (stem & rest & Hline).
  replace b with (set_available true b) at 1 by (destruct b; simpl in *; by subst).
  rewrite !Hline. intros Heq. by apply (inj (String.app stem)) in Heq.
Qed.

Lemma display_info_shows_checkout_witness :
  ∃ before after w',
    BookView.display_info 0 quiet_library = Ok before quiet_library ∧
    Book.checkout 0 quiet_library = Ok true w' ∧
    BookView.display_info 0 w' = Ok after w' ∧
    before ≠ after.
Proof.
  destruct quiet_library_objects as (L & b & mem & _ & _ & _ & Hb & _ & _ & Hav & _).
  exact (display_info_shows_checkout quiet_library 0 b Hb Hav).
Defined.

(** The line of the first book of the program's own catalogue. *)
Example display_info_line :
  BookView.display_info 0 quiet_library
  = Ok "B001 | To Kill a Mockingbird by Harper Lee | Fiction | 1960 | Available | Type: Novel"
       quiet_library.
Proof. by vm_compute. Qed.

(** ** The members of the store *)

Module EmailMore.
Import PyStr PyStrFacts EmailFacts.

Lemma not_rejected_accepted (email : string) :
  Member.email_rejected email = inr false → accepted_email email.
Proof.
  intros Hok.
  destruct (email_shape email) as [Hfree|(local & d & rest & Hemail & Hlocal & Hd & Hrest)].
  { unfold Member.email_rejected in Hok. replace "@" with (String at_sign "") in Hok by done.
    by rewrite (proj2 (contains_char at_sign email)) in Hok. }
  destruct (decide (local = "")) as [Hempty|Hne].
  { by rewrite (rejected_empty_local local d rest email) in Hok. }
  destruct (first_occurrence dot d) as [Hfree|(domain & tail & Hdom & Hfree)].
  { by rewrite (rejected_no_dot local d rest email) in Hok. }
  destruct (last_occurrence dot tail) as (middle & tld & -> & Htld & Hmiddle).
  rewrite (rejected_labels local d rest email Hemail Hlocal Hd Hrest domain middle tld)
    in Hok by done.
  injection Hok as [Hdne Hlen]%orb_false_iff.
  exists local, d, rest. repeat (split; [done|]). split; [|done].
  exists domain, middle, tld. repeat (split; [done|]).
  split; [intros ->; by rewrite (proj2 (length_zero "")) in Hdne|].
  split; [done|]. split; [done|]. split; [done|]. apply Nat.leb_gt in Hlen. lia.
Qed.

End EmailMore.

Lemma prim_checked_members (w w' : World) :
  prim w w' → checked_members w → checked_members w'.
Proof.
  intros Hprim Hall.
  destruct Hprim as [f|b|l|m Hemail|L HLb HLm|r b v Hb|r l|self L r b HL Hb Hnew
                    |self L r m HL Hm Hnew]; try done.
  intros r m' Hm'. simpl in Hm'.
  apply lookup_app_Some in Hm' as [Hm'|[_ Hm']]; [by eapply Hall|].
  apply list_lookup_singleton_Some in Hm' as [_ <-].
  by apply EmailMore.not_rejected_accepted.
Qed.

Lemma prims_checked_members (w w' : World) :
  rtc prim w w' → checked_members w → checked_members w'.
Proof.
  induction 1 as [|w1 w2 w3 Hstep _ IH]; [done|].
  intros Hc. by eapply IH, prim_checked_members.
Qed.

(** X19: whatever the calls, every [Member] object has an email that
    passed the check of the constructor: a member is built only with such
    an email and nothing changes it afterwards. *)
Theorem members_have_checked_emails (prog : list Op) (r : loc) (m : MemberObj)
    (Hm : member_store (run prog empty_world) !! r = Some m) :
  accepted_email (email m).
Proof.
  revert r m Hm. change (checked_members (run prog empty_world)).
  eapply prims_checked_members; [apply prims_run|].
  intros r m Hm. by destruct r.
Qed.

Lemma members_have_checked_emails_witness : accepted_email "jane@example.com".
Proof.
  assert (Hm : ∃ m, member_store (run busy_program empty_world) !! 1 = Some m ∧
                    email m = "jane@example.com").
  { eexists. split; by vm_compute. }
  destruct Hm as (m & Hm & <-).
  exact (members_have_checked_emails busy_program 1 m Hm).
Defined.
